(** * DecisionTrees: an ID3 decision tree over a discretised table

    A shallow embedding of the class [DecisionTree] of [DecisionTrees.py]:
    [find_best_column], [get_sub_table], [build_tree], [predict] and [test],
    followed by the properties of the column selector, the table
    partitioner, the tree builder, the predictor and the evaluation loop.

    Conventions of the embedding.
    - A pandas [DataFrame] is a list of column names and a list of rows; a
      row is the list of its cells, in column order.  A frame is well formed
      ([wf_frame]) when the column names are pairwise distinct, every row
      has one cell per column and the cells of a column are of one kind.
    - A cell is an integer bucket id or a string.  [np.unique] sorts in
      ascending order; a column holds cells of one kind.
    - Python exceptions are values of [exn]; a computation returns [Ok v],
      [Raise e], or [OutOfFuel] when the recursion budget given to
      [build_tree] is used up.  A call of [build_tree] that is [OutOfFuel]
      for every budget never returns a tree (the interpreter ends it with
      a [RecursionError]).
    - [info_gain] comes from the module [Preprocessing]; it is a parameter
      of the development, and so is the attribute [self.threshold].  Gains
      are rational numbers (floats are idealised, there is no NaN).
    - Frames carry no row index, which nothing but [reset_index] in
      [get_sub_table] touches; [get_sub_table_indexed] is [get_sub_table]
      on frames with their index.
    - Console output, [loadData] and [run] are left out. *)

From Stdlib Require Import String Ascii ZArith QArith Bool Arith Lia List.
From Stdlib Require Import Qround Qabs Lqa Sorting.Permutation Sorting.Sorted.
Import ListNotations.

Set Warnings "-register-all".
Local Open Scope list_scope.

(* ================================================================== *)
(** ** Python values, exceptions and results *)

Inductive value : Type :=
| VInt (z : Z)
| VStr (s : string).

Inductive exn : Type :=
| KeyError
| IndexError
| ValueError
| AttributeError
| ZeroDivisionError.

Inductive result (A : Type) : Type :=
| Ok (a : A)
| Raise (e : exn)
| OutOfFuel.

Arguments Ok {A} a.
Arguments Raise {A} e.
Arguments OutOfFuel {A}.

Definition bind {A B : Type} (m : result A) (k : A -> result B) : result B :=
  match m with
  | Ok a => k a
  | Raise e => Raise e
  | OutOfFuel => OutOfFuel
  end.

Notation "x <- m ;; k" := (bind m (fun x => k))
  (at level 61, m at next level, right associativity).

(** A [for] loop that builds one entry per element and stops at the first
    exception. *)
Fixpoint for_each {A B : Type} (body : A -> result B) (l : list A)
  : result (list B) :=
  match l with
  | [] => Ok []
  | a :: rest =>
      b <- body a ;;
      bs <- for_each body rest ;;
      Ok (b :: bs)
  end.

(* ------------------------------------------------------------------ *)
(** *** Equality and order on cells *)

(** Integers by value, strings by code point.  [np.unique] raises
    [TypeError] on a column that mixes integers and strings; here an
    integer is put before a string, so the embedding follows the code only
    on columns of one kind, as [wf_frame] requires, and the statements
    about what [build_tree] returns assume [wf_frame]. *)

Definition value_compare (a b : value) : comparison :=
  match a, b with
  | VInt x, VInt y => Z.compare x y
  | VStr s, VStr t => String.compare s t
  | VInt _, VStr _ => Lt
  | VStr _, VInt _ => Gt
  end.

Definition value_eqb (a b : value) : bool :=
  match value_compare a b with
  | Eq => true
  | _ => false
  end.

Definition value_lt (a b : value) : Prop := value_compare a b = Lt.

Definition value_le (a b : value) : Prop := value_compare a b <> Gt.

(* ------------------------------------------------------------------ *)
(** *** [np.unique]: the distinct elements, ascending *)

Fixpoint insert_unique (x : value) (l : list value) : list value :=
  match l with
  | [] => [x]
  | y :: rest =>
      match value_compare x y with
      | Lt => x :: l
      | Eq => l
      | Gt => y :: insert_unique x rest
      end
  end.

Definition np_unique (l : list value) : list value :=
  fold_right insert_unique [] l.

(** [seq[0]]. *)
Definition first_item {A : Type} (l : list A) : result A :=
  match l with
  | [] => Raise IndexError
  | x :: _ => Ok x
  end.

(* ================================================================== *)
(** ** Data frames *)

Record DataFrame : Type := mkFrame {
  columns : list string;
  rows : list (list value)
}.

(** Position of a column name.  For a name carried by two columns pandas
    selects both; here the first position is taken, so the embedding
    follows the code only on pairwise distinct names ([nodupb], part of
    [wf_frame]), which the statements about named columns assume. *)
Fixpoint col_index (cols : list string) (c : string) : option nat :=
  match cols with
  | [] => None
  | k :: rest =>
      if String.eqb k c then Some O
      else match col_index rest c with
           | Some i => Some (S i)
           | None => None
           end
  end.

Definition cell (i : nat) (row : list value) : value := nth i row (VInt 0).

(** [data[c]]: the cells of column [c], top to bottom. *)
Definition getitem (data : DataFrame) (c : string) : result (list value) :=
  match col_index (columns data) c with
  | None => Raise KeyError
  | Some i => Ok (map (cell i) (rows data))
  end.

(** [data.keys()[:-1]]: every column but the last one. *)
Definition feature_keys (data : DataFrame) : list string :=
  removelast (columns data).

(** [data.columns[-1]]. *)
Definition label_key (data : DataFrame) : result string :=
  match rev (columns data) with
  | [] => Raise IndexError
  | c :: _ => Ok c
  end.

Fixpoint nodupb (l : list string) : bool :=
  match l with
  | [] => true
  | x :: rest => negb (existsb (String.eqb x) rest) && nodupb rest
  end.

Definition same_kind (a b : value) : bool :=
  match a, b with
  | VInt _, VInt _ => true
  | VStr _, VStr _ => true
  | _, _ => false
  end.

Fixpoint rows_agree (r1 r2 : list value) : bool :=
  match r1, r2 with
  | [], [] => true
  | a :: r1', b :: r2' => same_kind a b && rows_agree r1' r2'
  | _, _ => false
  end.

Definition wf_frame (data : DataFrame) : bool :=
  nodupb (columns data)
  && forallb (fun r => Nat.eqb (length r) (length (columns data))) (rows data)
  && match rows data with
     | [] => true
     | r :: rest => forallb (rows_agree r) rest
     end.

(* ================================================================== *)
(** ** Comparison of gains *)

Definition Qltb (x y : Q) : bool :=
  (Qnum x * Zpos (Qden y) <? Qnum y * Zpos (Qden x))%Z.

(** [np.argmax]: index of the first maximum.  [best] is the running
    maximum, found at index [besti]; [i] is the index of the head of [l]. *)
Fixpoint argmax_from (best : Q) (besti i : nat) (l : list Q) : nat :=
  match l with
  | [] => besti
  | x :: rest =>
      if Qltb best x then argmax_from x i (S i) rest
      else argmax_from best besti (S i) rest
  end.

Definition np_argmax (l : list Q) : result nat :=
  match l with
  | [] => Raise ValueError
  | x :: rest => Ok (argmax_from x O 1 rest)
  end.

(** The builtin [max]: the first of the largest items. *)
Fixpoint max_from (best : Q) (l : list Q) : Q :=
  match l with
  | [] => best
  | x :: rest => if Qltb best x then max_from x rest else max_from best rest
  end.

Definition py_max (l : list Q) : result Q :=
  match l with
  | [] => Raise ValueError
  | x :: rest => Ok (max_from x rest)
  end.

(* ================================================================== *)
(** ** The tree and the prediction record *)

(** A tree is a label or a dictionary with one key, a column name, bound
    to a dictionary from the values of that column to trees.  Dictionaries
    keep insertion order. *)
Inductive pytree : Type :=
| Leaf (label : value)
| Node (node : string) (children : list (value * pytree)).

Definition is_dict (t : pytree) : bool :=
  match t with
  | Node _ _ => true
  | Leaf _ => false
  end.

(** [d[k]] on a dictionary keyed by cells. *)
Fixpoint children_get (d : list (value * pytree)) (k : value) : option pytree :=
  match d with
  | [] => None
  | (k', t) :: rest => if value_eqb k' k then Some t else children_get rest k
  end.

(** The record handed to [predict]: a dictionary from column names to
    cells. *)
Definition record : Type := list (string * value).

Fixpoint record_get (d : record) (k : string) : option value :=
  match d with
  | [] => None
  | (k', v) :: rest => if String.eqb k' k then Some v else record_get rest k
  end.

(** [d[k] = v]: overwrite in place, or append a new key. *)
Fixpoint record_set (d : record) (k : string) (v : value) : record :=
  match d with
  | [] => [(k, v)]
  | (k', v') :: rest =>
      if String.eqb k' k then (k', v) :: rest
      else (k', v') :: record_set rest k v
  end.

(* ================================================================== *)
(** ** class DecisionTree *)

Section DecisionTree.

(** [Preprocessing.info_gain] and [self.threshold]. *)
Variable info_gain : DataFrame -> string -> Q.
Variable threshold : Q.

(** [find_best_column]: the gains of the feature columns, then the
    column at the [argmax] position together with [max] of the gains. *)
Definition find_best_column (data : DataFrame) : result (string * Q) :=
  let ig_values := map (info_gain data) (feature_keys data) in
  i <- np_argmax ig_values ;;
  g <- py_max ig_values ;;
  Ok (nth i (feature_keys data) EmptyString, g).

(** [get_sub_table]: the rows whose [column] cell equals [label], in
    order, cut to the first hundred when more than a hundred match. *)
Definition get_sub_table (data : DataFrame) (column : string) (label : value)
  : result DataFrame :=
  match col_index (columns data) column with
  | None => Raise KeyError
  | Some i =>
      let temp_table :=
        filter (fun r => value_eqb (cell i r) label) (rows data) in
      if Nat.ltb 100 (length temp_table)
      then Ok (mkFrame (columns data) (firstn 100 temp_table))
      else Ok (mkFrame (columns data) temp_table)
  end.

(** One turn of the loop of [build_tree] over [node_unique_values]; [recur]
    is the recursive call. *)
Definition build_branch (recur : DataFrame -> result pytree)
    (data : DataFrame) (node : string) (gain : Q) (v : value)
  : result (value * pytree) :=
  sub_table <- get_sub_table data node v ;;
  lbl <- label_key data ;;
  labels <- getitem sub_table lbl ;;
  let column_values := np_unique labels in
  if Qltb gain threshold then
    leaf <- first_item column_values ;;
    Ok (v, Leaf leaf)
  else if Nat.eqb (length column_values) 1 then
    leaf <- first_item column_values ;;
    Ok (v, Leaf leaf)
  else
    t <- recur sub_table ;;
    Ok (v, t).

(** [build_tree(data)], with [tree=None] as at both of its call sites. *)
Fixpoint build_tree (fuel : nat) (data : DataFrame) : result pytree :=
  match fuel with
  | O => OutOfFuel
  | S fuel' =>
      info_gain_data <- find_best_column data ;;
      let node := fst info_gain_data in
      col <- getitem data node ;;
      let node_unique_values := np_unique col in
      kids <- for_each
                (build_branch (build_tree fuel') data node (snd info_gain_data))
                node_unique_values ;;
      Ok (Node node kids)
  end.

(** [predict]: one dictionary key, hence one turn of the loop.  A
    [KeyError] from either lookup leaves [prediction = 0]. *)
Fixpoint predict (tree : pytree) (data : record) : result value :=
  match tree with
  | Leaf _ => Raise AttributeError
  | Node node children =>
      match record_get data node with
      | None => Ok (VInt 0)
      | Some node_value =>
          (fix lookup (d : list (value * pytree)) : result value :=
             match d with
             | [] => Ok (VInt 0)
             | (k, sub) :: rest =>
                 if value_eqb k node_value then
                   match sub with
                   | Node _ _ => predict sub data
                   | Leaf l => Ok l
                   end
                 else lookup rest
             end) children
      end
  end.

(** The evaluation state of the object: [self.score] and
    [self.prediction_data]. *)
Record evaluator : Type := mkEvaluator {
  score : nat;
  prediction_data : list value
}.

(** What the last line of [test] prints. *)
Record report : Type := mkReport {
  correct_answers : Z;
  bad_guesses : Z;
  success_rate : Q
}.

(** [frame.iloc[row][c]] for a column [c] of the frame. *)
Definition row_item (cols : list string) (row : list value) (c : string)
  : value :=
  match col_index cols c with
  | Some i => cell i row
  | None => VInt 0
  end.

(** The inner loop of [test]: [test_dict[column] = ...] for every key. *)
Definition fill_record (cols : list string) (row : list value)
    (test_dict : record) : record :=
  fold_left (fun d c => record_set d c (row_item cols row c)) cols test_dict.

(** The outer loop of [test].  [column] is [None] before the first
    assignment of the inner loop, and the last key afterwards. *)
Fixpoint test_loop (tree : pytree) (cols : list string)
    (todo : list (list value)) (test_dict : record) (st : evaluator)
  : result evaluator :=
  match todo with
  | [] => Ok st
  | row :: rest =>
      let test_dict' := fill_record cols row test_dict in
      prediction <- predict tree test_dict' ;;
      let st1 := mkEvaluator (score st) (prediction_data st ++ [prediction]) in
      actual <- match rev cols with
                | [] => Raise KeyError
                | column :: _ => Ok (row_item cols row column)
                end ;;
      let st2 := if value_eqb actual prediction
                 then mkEvaluator (S (score st1)) (prediction_data st1)
                 else st1 in
      test_loop tree cols rest test_dict' st2
  end.

(** True division, [a / b]. *)
Definition py_truediv (a b : nat) : result Q :=
  match b with
  | O => Raise ZeroDivisionError
  | S _ => Ok (inject_Z (Z.of_nat a) / inject_Z (Z.of_nat b))%Q
  end.

(** [round(q)]: to the nearest integer, ties to the even one. *)
Definition round_half_even (q : Q) : Z :=
  let f := Qfloor q in
  match Qcompare (q - inject_Z f) (1 # 2) with
  | Lt => f
  | Gt => (f + 1)%Z
  | Eq => if Z.even f then f else (f + 1)%Z
  end.

(** [round(q, ndigits)], on the exact quotient.  The code rounds the
    binary float nearest to the quotient, which can differ from this
    figure by one unit of the last digit; statements about the reported
    rate are given up to that unit or as bounds. *)
Definition py_round (q : Q) (ndigits : nat) : Q :=
  let scale := inject_Z (10 ^ Z.of_nat ndigits) in
  (inject_Z (round_half_even (q * scale)) / scale)%Q.

(** [test]: score every row, then format the summary line. *)
Definition test (tree : pytree) (test_data : DataFrame) (st : evaluator)
  : result (evaluator * report) :=
  st' <- test_loop tree (columns test_data) (rows test_data) [] st ;;
  let total := length (rows test_data) in
  ratio <- py_truediv (score st') total ;;
  Ok (st', mkReport (Z.of_nat (score st'))
                    (Z.of_nat total - Z.of_nat (score st'))
                    (py_round (ratio * 100) 4)).

End DecisionTree.

(* ================================================================== *)
(** ** Vocabulary of the statements *)

(** [row[column] == label], for a column of the frame. *)
Definition matches (data : DataFrame) (column : string) (label : value)
    (row : list value) : bool :=
  value_eqb (row_item (columns data) row column) label.

(** The frame [get_sub_table] returns for a column of the frame. *)
Definition sub_frame (data : DataFrame) (column : string) (label : value)
  : DataFrame :=
  mkFrame (columns data)
          (firstn 100 (filter (matches data column label) (rows data))).

(** The cells of the last column. *)
Definition label_cells (data : DataFrame) : list value :=
  match label_key data with
  | Ok lbl => match getitem data lbl with
              | Ok cells => cells
              | _ => []
              end
  | _ => []
  end.

(** Number of dictionary levels above the deepest leaf. *)
Fixpoint depth (t : pytree) : nat :=
  match t with
  | Leaf _ => O
  | Node _ children =>
      S ((fix deepest (d : list (value * pytree)) : nat :=
            match d with
            | [] => O
            | (_, sub) :: rest => Nat.max (depth sub) (deepest rest)
            end) children)
  end.

(** The labels at the leaves, left to right. *)
Fixpoint leaves (t : pytree) : list value :=
  match t with
  | Leaf l => [l]
  | Node _ children =>
      (fix gather (d : list (value * pytree)) : list value :=
         match d with
         | [] => []
         | (_, sub) :: rest => leaves sub ++ gather rest
         end) children
  end.

(** [built_on data t]: every dictionary of [t] has one column and one
    entry per distinct value of that column in the frame it was built from:
    the keys are the distinct values in ascending order, none twice, none
    missing, none foreign; the frame of a child is the sub-table of its
    key. *)
Inductive built_on : DataFrame -> pytree -> Prop :=
| built_on_leaf (data : DataFrame) (l : value) : built_on data (Leaf l)
| built_on_node (data : DataFrame) (node : string)
    (children : list (value * pytree)) (col : list value) :
    getitem data node = Ok col ->
    map fst children = np_unique col ->
    NoDup (map fst children) ->
    (forall v, In v (map fst children) <-> In v col) ->
    (forall v sub, In (v, sub) children ->
       exists sub_table, get_sub_table data node v = Ok sub_table
                         /\ built_on sub_table sub) ->
    built_on data (Node node children).

(** [misses data t]: walking [t] along the record [data] reaches a
    dictionary whose column is not a key of the record, or whose entry for
    the value of the record is missing. *)
Inductive misses (data : record) : pytree -> Prop :=
| misses_column (node : string) (children : list (value * pytree)) :
    record_get data node = None ->
    misses data (Node node children)
| misses_branch (node : string) (children : list (value * pytree))
    (v : value) :
    record_get data node = Some v ->
    children_get children v = None ->
    misses data (Node node children)
| misses_below (node : string) (children : list (value * pytree))
    (v : value) (sub : pytree) :
    record_get data node = Some v ->
    children_get children v = Some sub ->
    misses data sub ->
    misses data (Node node children).

(** A frame on which the only feature column is constant and the labels
    differ, and the gain of a column that tells nothing. *)
Definition constant_column_frame : DataFrame :=
  mkFrame ["A"; "Y"]%string
          [[VInt 1; VStr "yes"]; [VInt 1; VStr "no"]].

Definition zero_gain : DataFrame -> string -> Q := fun _ _ => 0%Q.

(** The four rows of the worked example: [Y] is [yes] when [A] and [B]
    are both 1. *)
Definition and_frame : DataFrame :=
  mkFrame ["A"; "B"; "Y"]%string
          [[VInt 1; VInt 1; VStr "yes"]; [VInt 1; VInt 0; VStr "no"];
           [VInt 0; VInt 1; VStr "no"]; [VInt 0; VInt 0; VStr "no"]].

(** A gain for the examples: 0 on a column with at most one distinct value,
    and otherwise the number of values of the column whose rows carry a
    single label, plus one, in quarters. *)
Definition example_gain (data : DataFrame) (c : string) : Q :=
  match getitem data c with
  | Ok col =>
      let vals := np_unique col in
      if Nat.leb (length vals) 1 then 0%Q
      else
        let pure v := Nat.eqb (length (np_unique (label_cells (sub_frame data c v)))) 1 in
        (Z.of_nat (S (length (filter pure vals))) # 4)%Q
  | _ => 0%Q
  end.

(** The column names that occur as dictionary keys in a tree. *)
Fixpoint tree_columns (t : pytree) : list string :=
  match t with
  | Leaf _ => []
  | Node node children =>
      node :: (fix gather (d : list (value * pytree)) : list string :=
                 match d with
                 | [] => []
                 | (_, sub) :: rest => tree_columns sub ++ gather rest
                 end) children
  end.

(** The label of a row: its cell in the last column. *)
Definition row_label (cols : list string) (row : list value) : value :=
  match rev cols with
  | [] => VInt 0
  | column :: _ => row_item cols row column
  end.



(* ------------------------------------------------------------------ *)
(** *** Frames with their row index *)

(** A frame whose rows carry their index label. *)
Record IndexedFrame : Type := mkIndexed {
  icolumns : list string;
  irows : list (Z * list value)
}.

(** The frame without its index. *)
Definition frame_of (data : IndexedFrame) : DataFrame :=
  mkFrame (icolumns data) (map snd (irows data)).

(** [data[mask]] for a boolean mask aligned with the rows: the rows at the
    true positions, with their labels. *)
Fixpoint select_rows (mask : list bool) (l : list (Z * list value))
  : list (Z * list value) :=
  match mask, l with
  | b :: mask', r :: l' =>
      if b then r :: select_rows mask' l' else select_rows mask' l'
  | _, _ => []
  end.

(** [reset_index(drop=True)]: the rows relabelled 0, 1, 2, ... *)
Definition reset_index (l : list (Z * list value)) : list (Z * list value) :=
  combine (map Z.of_nat (seq 0 (length l))) (map snd l).

(** [get_sub_table], index included: the mask [data[column] == label], the
    selection, [reset_index(drop=True)], and the slice [[:100]] when more
    than a hundred rows are selected. *)
Definition get_sub_table_indexed (data : IndexedFrame) (column : string)
    (label : value) : result IndexedFrame :=
  match col_index (icolumns data) column with
  | None => Raise KeyError
  | Some i =>
      let mask := map (fun r => value_eqb (cell i (snd r)) label) (irows data) in
      let temp_table := reset_index (select_rows mask (irows data)) in
      if Nat.ltb 100 (length temp_table)
      then Ok (mkIndexed (icolumns data)
                 (firstn 100 (reset_index (select_rows mask (irows data)))))
      else Ok (mkIndexed (icolumns data)
                 (reset_index (select_rows mask (irows data))))
  end.

(** 250 rows labelled 1000, 1001, ...; column [A] alternates 0 and 1 and
    column [Y] numbers the rows. *)
Definition long_frame : IndexedFrame :=
  mkIndexed ["A"; "Y"]%string
    (map (fun n => (Z.of_nat (1000 + n),
                    [VInt (Z.of_nat (Nat.modulo n 2)); VInt (Z.of_nat n)]))
         (seq 0 250)).

(* ================================================================== *)
(** ** The order on cells *)

Lemma ascii_compare_refl (a : ascii) : Ascii.compare a a = Eq.
Proof. unfold Ascii.compare. apply N.compare_refl. Qed.

Lemma ascii_compare_lt_trans (a b c : ascii) :
  Ascii.compare a b = Lt -> Ascii.compare b c = Lt -> Ascii.compare a c = Lt.
Proof.
  unfold Ascii.compare. rewrite !N.compare_lt_iff. apply N.lt_trans.
Qed.

Lemma string_compare_refl (s : string) : String.compare s s = Eq.
Proof.
  induction s as [|a s IH]; simpl; [reflexivity|].
  now rewrite ascii_compare_refl.
Qed.

Lemma string_compare_lt_trans (s t u : string) :
  String.compare s t = Lt -> String.compare t u = Lt -> String.compare s u = Lt.
Proof.
  revert t u. induction s as [|a s IH]; intros [|b t] [|c u]; simpl;
    try congruence.
  destruct (Ascii.compare a b) eqn:Hab; try discriminate;
    destruct (Ascii.compare b c) eqn:Hbc; try discriminate; intros H1 H2.
  - apply Ascii.compare_eq_iff in Hab, Hbc. subst.
    rewrite ascii_compare_refl. eauto.
  - apply Ascii.compare_eq_iff in Hab. subst. now rewrite Hbc.
  - apply Ascii.compare_eq_iff in Hbc. subst. now rewrite Hab.
  - now rewrite (ascii_compare_lt_trans _ _ _ Hab Hbc).
Qed.

Lemma value_compare_refl (a : value) : value_compare a a = Eq.
Proof.
  destruct a; simpl; [apply Z.compare_refl | apply string_compare_refl].
Qed.

Lemma value_compare_eq (a b : value) : value_compare a b = Eq -> a = b.
Proof.
  destruct a, b; simpl; try discriminate; intros H.
  - apply Z.compare_eq in H. now subst.
  - apply String.compare_eq_iff in H. now subst.
Qed.

Lemma value_compare_antisym (a b : value) :
  value_compare a b = CompOpp (value_compare b a).
Proof.
  destruct a, b; simpl; try reflexivity.
  - apply Z.compare_antisym.
  - apply String.compare_antisym.
Qed.

Lemma value_lt_trans (a b c : value) :
  value_lt a b -> value_lt b c -> value_lt a c.
Proof.
  unfold value_lt. destruct a, b, c; simpl; try congruence.
  - rewrite !Z.compare_lt_iff. apply Z.lt_trans.
  - apply string_compare_lt_trans.
Qed.

Lemma value_eqb_eq (a b : value) : value_eqb a b = true <-> a = b.
Proof.
  unfold value_eqb. split.
  - destruct (value_compare a b) eqn:H; try discriminate.
    intros _. now apply value_compare_eq.
  - intros ->. now rewrite value_compare_refl.
Qed.

Lemma value_eqb_refl (a : value) : value_eqb a a = true.
Proof. now apply value_eqb_eq. Qed.

Lemma value_eqb_neq (a b : value) : value_eqb a b = false <-> a <> b.
Proof.
  rewrite <- value_eqb_eq. destruct (value_eqb a b); split; congruence.
Qed.

Lemma value_gt_lt (a b : value) : value_compare a b = Gt -> value_lt b a.
Proof.
  unfold value_lt. rewrite (value_compare_antisym b a). now intros ->.
Qed.

Lemma value_lt_le (a b : value) : value_lt a b -> value_le a b.
Proof. unfold value_lt, value_le. congruence. Qed.

Lemma value_le_refl (a : value) : value_le a a.
Proof. unfold value_le. rewrite value_compare_refl. discriminate. Qed.

(* ------------------------------------------------------------------ *)
(** ** [np_unique] lists each element once, in ascending order *)

Lemma insert_unique_In (x y : value) (l : list value) :
  In y (insert_unique x l) <-> y = x \/ In y l.
Proof.
  induction l as [|z l IH]; simpl.
  - intuition.
  - destruct (value_compare x z) eqn:Hc; simpl.
    + apply value_compare_eq in Hc. subst. intuition.
    + intuition.
    + rewrite IH. intuition.
Qed.

Lemma np_unique_In (y : value) (l : list value) :
  In y (np_unique l) <-> In y l.
Proof.
  induction l as [|x l IH]; simpl; [reflexivity|].
  rewrite insert_unique_In, IH. intuition.
Qed.

Lemma insert_unique_sorted (x : value) (l : list value) :
  StronglySorted value_lt l -> StronglySorted value_lt (insert_unique x l).
Proof.
  induction 1 as [|z l Hs IH Hall]; simpl.
  - repeat constructor.
  - destruct (value_compare x z) eqn:Hc.
    + now constructor.
    + constructor; [now constructor|].
      constructor; [exact Hc|].
      rewrite Forall_forall in *. intros w Hw.
      eapply value_lt_trans; [exact Hc | now apply Hall].
    + constructor; [exact IH|].
      rewrite Forall_forall in *. intros w Hw.
      apply insert_unique_In in Hw. destruct Hw as [->|Hw].
      * now apply value_gt_lt.
      * now apply Hall.
Qed.

Lemma np_unique_sorted (l : list value) : StronglySorted value_lt (np_unique l).
Proof.
  induction l as [|x l IH]; simpl; [constructor|].
  now apply insert_unique_sorted.
Qed.

Lemma sorted_lt_NoDup (l : list value) : StronglySorted value_lt l -> NoDup l.
Proof.
  induction 1 as [|z l Hs IH Hall]; constructor; [|exact IH].
  intros Hin. rewrite Forall_forall in Hall. specialize (Hall _ Hin).
  unfold value_lt in Hall. now rewrite value_compare_refl in Hall.
Qed.

Lemma np_unique_NoDup (l : list value) : NoDup (np_unique l).
Proof. apply sorted_lt_NoDup, np_unique_sorted. Qed.

Lemma np_unique_nonempty (l : list value) : l <> [] -> np_unique l <> [].
Proof.
  destruct l as [|x l]; [congruence|]. intros _ H.
  assert (Hin : In x (np_unique (x :: l))) by (apply np_unique_In; now left).
  rewrite H in Hin. exact Hin.
Qed.

(** The head of [np_unique l] is the least element of [l]. *)
Lemma np_unique_head_least (l : list value) (m : value) (rest : list value) :
  np_unique l = m :: rest -> In m l /\ forall x, In x l -> value_le m x.
Proof.
  intros H. split.
  - apply np_unique_In. rewrite H. now left.
  - intros x Hx. apply np_unique_In in Hx. rewrite H in Hx.
    pose proof (np_unique_sorted l) as Hs. rewrite H in Hs.
    inversion Hs as [|? ? _ Hall]; subst.
    destruct Hx as [->|Hx]; [apply value_le_refl|].
    rewrite Forall_forall in Hall. now apply value_lt_le, Hall.
Qed.

(* ------------------------------------------------------------------ *)
(** ** Loops and lookups *)

Lemma for_each_map {A B : Type} (body : A -> result B) (f : A -> B)
    (l : list A) :
  (forall a, In a l -> body a = Ok (f a)) -> for_each body l = Ok (map f l).
Proof.
  induction l as [|a l IH]; intros H; simpl; [reflexivity|].
  rewrite (H a) by now left. simpl.
  rewrite IH by (intros; apply H; now right). reflexivity.
Qed.

Lemma for_each_ext {A B : Type} (f g : A -> result B) (l : list A) :
  (forall a, In a l -> f a = g a) -> for_each f l = for_each g l.
Proof.
  induction l as [|a l IH]; intros H; simpl; [reflexivity|].
  rewrite (H a) by now left.
  rewrite IH by (intros; apply H; now right). reflexivity.
Qed.

Lemma col_index_In (cols : list string) (c : string) :
  In c cols -> exists i, col_index cols c = Some i /\ (i < length cols)%nat.
Proof.
  induction cols as [|k cols IH]; simpl; [tauto|]. intros H.
  destruct (String.eqb k c) eqn:E.
  - exists O. split; [reflexivity | lia].
  - destruct H as [->|H]; [now rewrite String.eqb_refl in E|].
    destruct (IH H) as (i & -> & Hi). exists (S i). split; [reflexivity | lia].
Qed.

Lemma col_index_Some (cols : list string) (c : string) (i : nat) :
  col_index cols c = Some i -> In c cols.
Proof.
  revert i. induction cols as [|k cols IH]; simpl; [discriminate|]. intros i.
  destruct (String.eqb k c) eqn:E.
  - apply String.eqb_eq in E. now left.
  - destruct (col_index cols c); [|discriminate]. intros _. right. eauto.
Qed.

Lemma In_removelast {A : Type} (x : A) (l : list A) :
  In x (removelast l) -> In x l.
Proof.
  induction l as [|a l IH]; simpl; [tauto|].
  destruct l as [|b l]; [simpl; tauto|].
  intros [->|H]; [now left | right; now apply IH].
Qed.

(* ------------------------------------------------------------------ *)
(** ** Comparison of gains *)

Lemma Qltb_lt (x y : Q) : Qltb x y = true <-> (x < y)%Q.
Proof. unfold Qltb, Qlt. apply Z.ltb_lt. Qed.

Lemma Qltb_ge (x y : Q) : Qltb x y = false <-> (y <= x)%Q.
Proof. unfold Qltb, Qle. apply Z.ltb_ge. Qed.

(** The scan of [np.argmax] and of [max], started after the prefix [pre]
    whose first maximum [best] sits at [besti]. *)
Lemma argmax_from_scan (d : Q) (l pre : list Q) (best : Q) (besti : nat) :
  (besti < length pre)%nat ->
  nth besti pre d = best ->
  (forall x, In x pre -> (x <= best)%Q) ->
  (forall j, (j < besti)%nat -> (nth j pre d < best)%Q) ->
  let k := argmax_from best besti (length pre) l in
  let g := max_from best l in
  (k < length (pre ++ l))%nat /\
  nth k (pre ++ l) d = g /\
  (forall x, In x (pre ++ l) -> (x <= g)%Q) /\
  (forall j, (j < k)%nat -> (nth j (pre ++ l) d < g)%Q).
Proof.
  revert pre best besti.
  induction l as [|x l IH]; intros pre best besti Hlt Hnth Hmax Hfirst; simpl.
  - rewrite app_nil_r. auto.
  - replace (pre ++ x :: l) with ((pre ++ [x]) ++ l)
      by (rewrite <- app_assoc; reflexivity).
    replace (S (length pre)) with (length (pre ++ [x]))
      by (rewrite length_app; simpl; lia).
    destruct (Qltb best x) eqn:E.
    + apply Qltb_lt in E. apply IH.
      * rewrite length_app. simpl. lia.
      * rewrite app_nth2 by lia. now rewrite Nat.sub_diag.
      * intros y Hy. apply in_app_or in Hy. destruct Hy as [Hy|[<-|[]]].
        -- apply Qlt_le_weak. eapply Qle_lt_trans; [now apply Hmax | exact E].
        -- apply Qle_refl.
      * intros j Hj. rewrite app_nth1 by exact Hj.
        eapply Qle_lt_trans; [|exact E]. apply Hmax. now apply nth_In.
    + apply Qltb_ge in E. apply IH.
      * rewrite length_app. simpl. lia.
      * rewrite app_nth1 by exact Hlt. exact Hnth.
      * intros y Hy. apply in_app_or in Hy. destruct Hy as [Hy|[<-|[]]];
          [now apply Hmax | exact E].
      * intros j Hj. rewrite app_nth1 by lia. now apply Hfirst.
Qed.

Lemma np_argmax_first_max (d x : Q) (l : list Q) :
  let k := argmax_from x O 1 l in
  let g := max_from x l in
  (k < length (x :: l))%nat /\
  nth k (x :: l) d = g /\
  (forall y, In y (x :: l) -> (y <= g)%Q) /\
  (forall j, (j < k)%nat -> (nth j (x :: l) d < g)%Q).
Proof.
  apply (argmax_from_scan d l [x] x O); simpl.
  - lia.
  - reflexivity.
  - intros y [<-|[]]. apply Qle_refl.
  - intros j Hj. lia.
Qed.

(* ------------------------------------------------------------------ *)
(** ** The rows kept by [get_sub_table] *)

Lemma filter_matches (data : DataFrame) (column : string) (label : value)
    (i : nat) (l : list (list value)) :
  col_index (columns data) column = Some i ->
  filter (fun r => value_eqb (cell i r) label) l
  = filter (matches data column label) l.
Proof.
  intros Hi. apply filter_ext. intros r. unfold matches, row_item.
  now rewrite Hi.
Qed.

Lemma get_sub_table_rows (data : DataFrame) (column : string) (label : value)
    (i : nat) :
  col_index (columns data) column = Some i ->
  get_sub_table data column label
  = Ok (mkFrame (columns data)
          (firstn 100 (filter (matches data column label) (rows data)))).
Proof.
  intros Hi. unfold get_sub_table. rewrite Hi.
  rewrite (filter_matches data column label i _ Hi).
  destruct (Nat.ltb 100 _) eqn:E; [reflexivity|].
  apply Nat.ltb_ge in E. now rewrite firstn_all2.
Qed.



(* ================================================================== *)
(** ** Column selector *)

Lemma find_best_column_scan
    (info_gain : DataFrame -> string -> Q) (data : DataFrame) :
  feature_keys data <> [] ->
  exists k : nat,
    (k < length (feature_keys data))%nat /\
    let column := nth k (feature_keys data) EmptyString in
    find_best_column info_gain data = Ok (column, info_gain data column) /\
    (forall c, In c (feature_keys data) ->
               (info_gain data c <= info_gain data column)%Q) /\
    (forall j, (j < k)%nat ->
               (info_gain data (nth j (feature_keys data) EmptyString)
                < info_gain data column)%Q).
Proof.
  intros Hne. unfold find_best_column.
  destruct (feature_keys data) as [|c0 cs] eqn:Hk; [congruence|]. clear Hne.
  change (map (info_gain data) (c0 :: cs))
    with (info_gain data c0 :: map (info_gain data) cs).
  destruct (np_argmax_first_max (info_gain data EmptyString)
              (info_gain data c0) (map (info_gain data) cs))
    as (Hlt & Hnth & Hmax & Hfirst).
  change (info_gain data c0 :: map (info_gain data) cs)
    with (map (info_gain data) (c0 :: cs)) in Hlt, Hnth, Hmax, Hfirst.
  rewrite length_map in Hlt. rewrite map_nth in Hnth.
  exists (argmax_from (info_gain data c0) 0 1 (map (info_gain data) cs)).
  split; [exact Hlt|]. cbv zeta. simpl bind. rewrite Hnth. split; [reflexivity|].
  split.
  - intros c Hc. apply Hmax. now apply in_map.
  - intros j Hj. specialize (Hfirst j Hj). now rewrite map_nth in Hfirst.
Qed.

(** C4.  On a frame whose columns are the feature columns [feats], at
    least one, followed by the label column, [find_best_column] returns one
    of [feats], never the label, together with its own gain; that gain is
    the largest gain over [feats], and every column of [feats] to the left
    of the returned one has a strictly smaller gain: the returned column is
    the first to reach the maximum.  The number of rows plays no part. *)
Theorem find_best_column_first_maximum
    (info_gain : DataFrame -> string -> Q) (data : DataFrame)
    (feats : list string) (lbl : string) :
  columns data = feats ++ [lbl] ->
  feats <> [] ->
  exists k : nat,
    (k < length feats)%nat /\
    let column := nth k feats EmptyString in
    find_best_column info_gain data = Ok (column, info_gain data column) /\
    (forall c, In c feats ->
               (info_gain data c <= info_gain data column)%Q) /\
    (forall j, (j < k)%nat ->
               (info_gain data (nth j feats EmptyString)
                < info_gain data column)%Q).
Proof.
  intros Hcols Hne.
  assert (Hk : feature_keys data = feats).
  { unfold feature_keys. rewrite Hcols. apply removelast_last. }
  rewrite <- Hk in Hne |- *. exact (find_best_column_scan info_gain data Hne).
Qed.

Lemma find_best_column_Ok (info_gain : DataFrame -> string -> Q)
    (data : DataFrame) (node : string) (gain : Q) :
  find_best_column info_gain data = Ok (node, gain) ->
  In node (feature_keys data) /\ gain = info_gain data node.
Proof.
  intros H. destruct (feature_keys data) as [|c0 cs] eqn:Hk.
  - unfold find_best_column in H. rewrite Hk in H. discriminate.
  - destruct (find_best_column_scan info_gain data) as (k & Hlt & Hfb & _).
    { rewrite Hk. discriminate. }
    cbv zeta in Hfb. rewrite Hfb in H. injection H as <- <-.
    rewrite <- Hk. split; [now apply nth_In | reflexivity].
Qed.

Lemma find_best_column_empty (info_gain : DataFrame -> string -> Q)
    (data : DataFrame) :
  feature_keys data = [] -> find_best_column info_gain data = Raise ValueError.
Proof. intros H. unfold find_best_column. now rewrite H. Qed.

(* ================================================================== *)
(** ** Table partitioner *)

Lemma select_rows_filter (f : Z * list value -> bool)
    (l : list (Z * list value)) :
  select_rows (map f l) l = filter f l.
Proof.
  induction l as [|r l IH]; simpl; [reflexivity|].
  destruct (f r); now rewrite IH.
Qed.

Lemma map_snd_filter (g : list value -> bool) (l : list (Z * list value)) :
  map snd (filter (fun r => g (snd r)) l) = filter g (map snd l).
Proof.
  induction l as [|r l IH]; simpl; [reflexivity|].
  destruct (g (snd r)); simpl; now rewrite IH.
Qed.

Lemma combine_fst_snd {A B : Type} (l1 : list A) (l2 : list B) :
  length l1 = length l2 ->
  map fst (combine l1 l2) = l1 /\ map snd (combine l1 l2) = l2.
Proof.
  revert l2. induction l1 as [|a l1 IH]; intros [|b l2] H; simpl in *;
    try discriminate; [now split|].
  destruct (IH l2) as [H1 H2]; [lia|]. now rewrite H1, H2.
Qed.

(** [reset_index] keeps the rows and numbers them from zero. *)
Lemma reset_index_rows (l : list (Z * list value)) :
  map fst (reset_index l) = map Z.of_nat (seq 0 (length l)) /\
  map snd (reset_index l) = map snd l /\
  length (reset_index l) = length l.
Proof.
  unfold reset_index.
  destruct (combine_fst_snd (map Z.of_nat (seq 0 (length l))) (map snd l))
    as [H1 H2].
  { now rewrite !length_map, length_seq. }
  split; [exact H1|]. split; [exact H2|].
  rewrite length_combine, !length_map, length_seq. apply Nat.min_id.
Qed.

Lemma firstn_seq_min (n start len : nat) :
  firstn n (seq start len) = seq start (Nat.min n len).
Proof.
  revert n start. induction len as [|len IH]; intros [|n] start; simpl;
    try reflexivity.
  now rewrite IH.
Qed.

Lemma firstn_from_zero (n : nat) (l : list (Z * list value)) :
  map fst l = map Z.of_nat (seq 0 (length l)) ->
  map fst (firstn n l) = map Z.of_nat (seq 0 (length (firstn n l))).
Proof.
  intros H. rewrite <- firstn_map, H, firstn_map, firstn_seq_min.
  now rewrite length_firstn.
Qed.

(** C5.  For a frame with pairwise distinct column names and one of its
    columns, [get_sub_table] returns a frame with the same columns whose
    rows are the rows of the input with [column] equal to [label], in
    their original order, whatever their labels in the input index, and
    labelled 0, 1, 2, ... in the result: all of them when at most 100
    match, and exactly the first 100 of them when more than 100 match.
    Without its index the result is what [get_sub_table] returns on the
    frame without its index. *)
Theorem get_sub_table_first_hundred
    (data : IndexedFrame) (column : string) (label : value) :
  nodupb (icolumns data) = true ->
  In column (icolumns data) ->
  let matching :=
    filter (matches (frame_of data) column label) (rows (frame_of data)) in
  exists sub : IndexedFrame,
    get_sub_table_indexed data column label = Ok sub /\
    get_sub_table (frame_of data) column label = Ok (frame_of sub) /\
    icolumns sub = icolumns data /\
    map fst (irows sub) = map Z.of_nat (seq 0 (length (irows sub))) /\
    (length matching <= 100 -> map snd (irows sub) = matching)%nat /\
    (100 < length matching ->
     map snd (irows sub) = firstn 100 matching
     /\ length (irows sub) = 100)%nat.
Proof.
  intros _ Hin matching. destruct (col_index_In _ _ Hin) as (i & Hi & _).
  set (kept := filter (fun r => value_eqb (cell i (snd r)) label) (irows data)).
  assert (Hkept : map snd kept = matching).
  { unfold kept, matching.
    rewrite (map_snd_filter (fun row => value_eqb (cell i row) label)).
    apply (filter_matches (frame_of data) column label i). exact Hi. }
  destruct (reset_index_rows kept) as (Hfst & Hsnd & Hlen).
  assert (Hrun : get_sub_table_indexed data column label
                 = Ok (mkIndexed (icolumns data)
                         (firstn 100 (reset_index kept)))).
  { unfold get_sub_table_indexed. rewrite Hi. cbv zeta.
    rewrite select_rows_filter. fold kept.
    destruct (Nat.ltb 100 (length (reset_index kept))) eqn:E; [reflexivity|].
    apply Nat.ltb_ge in E. now rewrite firstn_all2. }
  exists (mkIndexed (icolumns data) (firstn 100 (reset_index kept))).
  split; [exact Hrun|]. cbn [icolumns irows]. split.
  { rewrite (get_sub_table_rows (frame_of data) column label i Hi).
    unfold frame_of. cbn [icolumns irows columns rows].
    fold (frame_of data). fold matching.
    now rewrite <- firstn_map, Hsnd, Hkept. }
  split; [reflexivity|]. split.
  { apply firstn_from_zero. now rewrite Hfst, Hlen. }
  rewrite <- firstn_map, Hsnd, Hkept. split.
  - intros Hle. now apply firstn_all2.
  - intros Hgt. split; [reflexivity|].
    rewrite length_firstn, Hlen, <- (length_map snd kept), Hkept. lia.
Qed.


(* ================================================================== *)
(** ** One branch of the tree builder *)

Lemma label_key_Ok (data : DataFrame) :
  columns data <> [] ->
  exists lbl, label_key data = Ok lbl /\ In lbl (columns data).
Proof.
  intros Hne. unfold label_key.
  destruct (rev (columns data)) as [|c rest] eqn:Hr.
  - apply (f_equal (@rev string)) in Hr. rewrite rev_involutive in Hr.
    simpl in Hr. congruence.
  - exists c. split; [reflexivity|]. apply in_rev. rewrite Hr. now left.
Qed.

Lemma matches_cell (data : DataFrame) (column : string) (i : nat)
    (v : value) (r : list value) :
  col_index (columns data) column = Some i ->
  matches data column v r = value_eqb (cell i r) v.
Proof. intros Hi. unfold matches, row_item. now rewrite Hi. Qed.

(** A value read from the column matches the row it was read from. *)
Lemma sub_frame_nonempty (data : DataFrame) (node : string) (i : nat)
    (v : value) :
  col_index (columns data) node = Some i ->
  In v (np_unique (map (cell i) (rows data))) ->
  rows (sub_frame data node v) <> [].
Proof.
  intros Hi Hv. apply np_unique_In, in_map_iff in Hv.
  destruct Hv as (r & Hr & Hin).
  assert (Hf : In r (filter (matches data node v) (rows data))).
  { apply filter_In. split; [exact Hin|].
    rewrite (matches_cell data node i v r Hi). now apply value_eqb_eq. }
  cbn [sub_frame rows].
  destruct (filter (matches data node v) (rows data)) as [|r0 rs];
    [contradiction | discriminate].
Qed.

Lemma label_cells_sub_frame (data : DataFrame) (node : string) (v : value)
    (lbl : string) :
  label_key data = Ok lbl ->
  In lbl (columns data) ->
  getitem (sub_frame data node v) lbl
  = Ok (label_cells (sub_frame data node v))
  /\ length (label_cells (sub_frame data node v))
     = length (rows (sub_frame data node v)).
Proof.
  intros Hl Hin. destruct (col_index_In _ _ Hin) as (li & Hli & _).
  unfold label_cells.
  change (label_key (sub_frame data node v)) with (label_key data).
  rewrite Hl. unfold getitem. cbn [sub_frame columns]. rewrite Hli.
  split; [reflexivity | apply length_map].
Qed.

Section Branch.

Variable threshold : Q.
Variable recur : DataFrame -> result pytree.
Variables (data : DataFrame) (node : string) (gain : Q) (i : nat) (v : value).
Hypothesis Hnode : col_index (columns data) node = Some i.
Hypothesis Hvalue : In v (np_unique (map (cell i) (rows data))).

Lemma branch_labels :
  exists lbl leaf rest,
    get_sub_table data node v = Ok (sub_frame data node v) /\
    label_key data = Ok lbl /\
    getitem (sub_frame data node v) lbl
    = Ok (label_cells (sub_frame data node v)) /\
    np_unique (label_cells (sub_frame data node v)) = leaf :: rest.
Proof.
  destruct (label_key_Ok data) as (lbl & Hl & Hin).
  { intros E. rewrite E in Hnode. discriminate. }
  destruct (label_cells_sub_frame data node v lbl Hl Hin) as [Hget Hlen].
  pose proof (sub_frame_nonempty data node i v Hnode Hvalue) as Hne.
  destruct (np_unique (label_cells (sub_frame data node v))) as [|leaf rest]
    eqn:Hu.
  - exfalso. apply (np_unique_nonempty (label_cells (sub_frame data node v)));
      [|exact Hu].
    intros E. rewrite E in Hlen.
    destruct (rows (sub_frame data node v)); [congruence | discriminate Hlen].
  - exists lbl, leaf, rest.
    split; [apply (get_sub_table_rows data node v i Hnode)|].
    split; [exact Hl|]. split; [exact Hget | reflexivity].
Qed.

(** The three cases of the loop body, on a value of the column. *)
Lemma build_branch_cases :
  exists leaf rest,
    np_unique (label_cells (sub_frame data node v)) = leaf :: rest /\
    build_branch threshold recur data node gain v
    = if Qltb gain threshold then Ok (v, Leaf leaf)
      else if Nat.eqb (length (leaf :: rest)) 1 then Ok (v, Leaf leaf)
      else t <- recur (sub_frame data node v) ;; Ok (v, t).
Proof.
  destruct branch_labels as (lbl & leaf & rest & Hsub & Hl & Hget & Hu).
  exists leaf, rest. split; [exact Hu|].
  unfold build_branch. rewrite Hsub. cbn [bind]. rewrite Hl. cbn [bind].
  rewrite Hget. cbn [bind]. rewrite Hu. reflexivity.
Qed.

End Branch.

Lemma for_each_inv {A B : Type} (body : A -> result B) (l : list A)
    (bs : list B) :
  for_each body l = Ok bs -> Forall2 (fun a b => body a = Ok b) l bs.
Proof.
  revert bs. induction l as [|a l IH]; simpl; intros bs H.
  - injection H as <-. constructor.
  - destruct (body a) as [b| |] eqn:Hb; try discriminate. simpl in H.
    destruct (for_each body l) as [bs'| |]; try discriminate. simpl in H.
    injection H as <-. constructor; [exact Hb | now apply IH].
Qed.

Lemma for_each_total {A B : Type} (body : A -> result B) (l : list A) :
  (forall a, In a l -> exists b, body a = Ok b) ->
  exists bs, for_each body l = Ok bs.
Proof.
  induction l as [|a l IH]; intros H; simpl.
  - now exists [].
  - destruct (H a) as [b Hb]; [now left|]. rewrite Hb. simpl.
    destruct IH as [bs Hbs]; [intros; apply H; now right|].
    rewrite Hbs. simpl. now exists (b :: bs).
Qed.

Lemma for_each_not_raise {A B : Type} (body : A -> result B) (l : list A)
    (e : exn) :
  (forall a, In a l -> body a <> Raise e) -> for_each body l <> Raise e.
Proof.
  induction l as [|a l IH]; intros H; simpl; [discriminate|].
  assert (Ha : body a <> Raise e) by (apply H; now left).
  assert (Hl : for_each body l <> Raise e) by (apply IH; intros; apply H; now right).
  destruct (body a) as [b|e'|]; simpl; [| |discriminate].
  - destruct (for_each body l) as [bs|e'|]; simpl;
      [discriminate | exact Hl | discriminate].
  - intros E. apply Ha. congruence.
Qed.

(* ================================================================== *)
(** ** Tree builder *)

Section BuildTree.

Variable info_gain : DataFrame -> string -> Q.
Variable threshold : Q.

Lemma best_column_index (data : DataFrame) (node : string) (gain : Q) :
  find_best_column info_gain data = Ok (node, gain) ->
  exists i, col_index (columns data) node = Some i.
Proof.
  intros H. apply find_best_column_Ok in H. destruct H as [Hin _].
  apply In_removelast in Hin.
  destruct (col_index_In _ _ Hin) as (i & Hi & _). now exists i.
Qed.

(** One level of [build_tree]: the loop over the values of the best column. *)
Lemma build_tree_step (fuel : nat) (data : DataFrame) (node : string)
    (gain : Q) (i : nat) :
  find_best_column info_gain data = Ok (node, gain) ->
  col_index (columns data) node = Some i ->
  build_tree info_gain threshold (S fuel) data
  = (kids <- for_each
               (build_branch threshold (build_tree info_gain threshold fuel)
                             data node gain)
               (np_unique (map (cell i) (rows data))) ;;
     Ok (Node node kids)).
Proof.
  intros Hb Hi. cbn [build_tree]. rewrite Hb. cbn [bind fst snd].
  unfold getitem. rewrite Hi. reflexivity.
Qed.

Lemma build_tree_never_IndexError (fuel : nat) (data : DataFrame) :
  build_tree info_gain threshold fuel data <> Raise IndexError.
Proof.
  revert data. induction fuel as [|fuel IH]; intros data; [discriminate|].
  destruct (find_best_column info_gain data) as [[node gain]|e|] eqn:Hb.
  - destruct (best_column_index data node gain Hb) as [i Hi].
    rewrite (build_tree_step fuel data node gain i Hb Hi).
    match goal with
    | |- bind ?m _ <> _ =>
        assert (Hloop : m <> Raise IndexError);
        [|destruct m; simpl;
          [discriminate | intros E; apply Hloop; congruence | discriminate]]
    end.
    apply for_each_not_raise. intros v Hv.
    destruct (build_branch_cases threshold (build_tree info_gain threshold fuel)
                data node gain i v Hi Hv) as (leaf & rest & _ & ->).
    destruct (Qltb gain threshold); [discriminate|].
    destruct (Nat.eqb _ 1); [discriminate|].
    specialize (IH (sub_frame data node v)).
    destruct (build_tree info_gain threshold fuel (sub_frame data node v));
      simpl; [discriminate | intros E; apply IH; congruence | discriminate].
  - cbn [build_tree]. rewrite Hb. simpl.
    destruct (feature_keys data) as [|c0 cs] eqn:Hk.
    + rewrite (find_best_column_empty info_gain data Hk) in Hb. congruence.
    + destruct (find_best_column_scan info_gain data) as (k & _ & Hfb & _).
      { rewrite Hk. discriminate. }
      cbv zeta in Hfb. congruence.
  - cbn [build_tree]. rewrite Hb. discriminate.
Qed.

(** Below the threshold, every value of the best column gets a leaf. *)
Lemma build_tree_pruned (fuel : nat) (data : DataFrame) (node : string)
    (gain : Q) (i : nat) :
  find_best_column info_gain data = Ok (node, gain) ->
  col_index (columns data) node = Some i ->
  (gain < threshold)%Q ->
  build_tree info_gain threshold (S fuel) data
  = Ok (Node node
          (map (fun v => (v, Leaf (hd (VInt 0)
                                      (np_unique (label_cells (sub_frame data node v))))))
               (np_unique (map (cell i) (rows data))))).
Proof.
  intros Hb Hi Hlt. rewrite (build_tree_step fuel data node gain i Hb Hi).
  erewrite for_each_map; [reflexivity|]. intros v Hv.
  destruct (build_branch_cases threshold (build_tree info_gain threshold fuel)
              data node gain i v Hi Hv) as (leaf & rest & Hu & ->).
  apply Qltb_lt in Hlt. rewrite Hlt, Hu. reflexivity.
Qed.

End BuildTree.

Lemma children_get_map (f : value -> pytree) (l : list value) (v : value) :
  In v l -> children_get (map (fun x => (x, f x)) l) v = Some (f v).
Proof.
  induction l as [|x l IH]; simpl; [tauto|]. intros H.
  destruct (value_eqb x v) eqn:E.
  - apply value_eqb_eq in E. now subst.
  - destruct H as [->|H]; [now rewrite value_eqb_refl in E | now apply IH].
Qed.

Lemma depth_of_leaves (node : string) (f : value -> value) (l : list value) :
  depth (Node node (map (fun x => (x, Leaf (f x))) l)) = 1%nat.
Proof.
  cbn [depth]. f_equal. induction l as [|x l IH]; simpl; [reflexivity|].
  exact IH.
Qed.

Lemma Forall2_map_fst {A B : Type} (R : A -> A * B -> Prop) (l : list A)
    (bs : list (A * B)) :
  Forall2 R l bs ->
  (forall a b, In a l -> R a b -> fst b = a) ->
  map fst bs = l.
Proof.
  induction 1 as [|a b l bs Hab _ IH]; intros Hfst; simpl; [reflexivity|].
  f_equal.
  - apply Hfst; [now left | exact Hab].
  - apply IH. intros a' b' Ha'. apply Hfst. now right.
Qed.

Lemma Forall2_In_right {A B : Type} (R : A -> B -> Prop) (l : list A)
    (bs : list B) (b : B) :
  Forall2 R l bs -> In b bs -> exists a, In a l /\ R a b.
Proof.
  induction 1 as [|a b' l bs Hab _ IH]; simpl; [tauto|].
  intros [<-|Hin].
  - exists a. split; [now left | exact Hab].
  - destruct (IH Hin) as (a' & Ha' & HR). exists a'. split; [now right | exact HR].
Qed.

Lemma filter_length_lt {A : Type} (f : A -> bool) (l : list A) (x : A) :
  In x l -> f x = false -> (length (filter f l) < length l)%nat.
Proof.
  induction l as [|a l IH]; simpl; [tauto|]. intros [->|Hin] Hx.
  - rewrite Hx. pose proof (filter_length_le f l). lia.
  - specialize (IH Hin Hx). destruct (f a); simpl; lia.
Qed.

(** When the column has two distinct values, the sub-table of each of them
    leaves a row out. *)
Lemma sub_frame_strict (data : DataFrame) (node : string) (i : nat) (v : value) :
  col_index (columns data) node = Some i ->
  (1 < length (np_unique (map (cell i) (rows data))))%nat ->
  (length (rows (sub_frame data node v)) < length (rows data))%nat.
Proof.
  intros Hi Htwo.
  assert (Hother : exists w, In w (np_unique (map (cell i) (rows data))) /\ w <> v).
  { pose proof (np_unique_NoDup (map (cell i) (rows data))) as Hnd.
    destruct (np_unique (map (cell i) (rows data))) as [|a [|b rest]];
      simpl in Htwo; try lia.
    destruct (value_eqb a v) eqn:E.
    - apply value_eqb_eq in E. subst a. exists b. split; [simpl; tauto|].
      intros ->. inversion Hnd as [|? ? Hn _]; subst. apply Hn. now left.
    - apply value_eqb_neq in E. exists a. split; [now left | exact E]. }
  destruct Hother as (w & Hw & Hne).
  apply np_unique_In, in_map_iff in Hw. destruct Hw as (r & Hr & Hin).
  cbn [sub_frame rows]. rewrite length_firstn.
  assert (Hlt : (length (filter (matches data node v) (rows data))
                 < length (rows data))%nat).
  { apply (filter_length_lt _ _ r Hin).
    rewrite (matches_cell data node i v r Hi), Hr. now apply value_eqb_neq. }
  lia.
Qed.

(** C1.  On a well-formed frame (distinct column names, one cell per
    column, one kind of cell per column), when the gain of the selected
    column is below the threshold,
    [build_tree] returns, with any recursion budget of at least one level,
    a dictionary on the selected column with one entry per distinct value
    of that column; the entry of a value is a leaf holding the first of the
    distinct labels of its sub-table in ascending order, that is its least
    label.  The tree has at least one branch, every branch is a leaf, and
    its depth is 1. *)
Theorem build_tree_gain_below_threshold
    (info_gain : DataFrame -> string -> Q) (threshold : Q) (fuel : nat)
    (data : DataFrame) (node : string) (gain : Q) :
  wf_frame data = true ->
  rows data <> [] ->
  find_best_column info_gain data = Ok (node, gain) ->
  (gain < threshold)%Q ->
  exists col children,
    getitem data node = Ok col /\
    build_tree info_gain threshold (S fuel) data = Ok (Node node children) /\
    map fst children = np_unique col /\
    (forall v, In v (np_unique col) ->
       exists sub_table lbl labels leaf rest,
         get_sub_table data node v = Ok sub_table /\
         label_key data = Ok lbl /\
         getitem sub_table lbl = Ok labels /\
         np_unique labels = leaf :: rest /\
         (forall x, In x labels -> value_le leaf x) /\
         children_get children v = Some (Leaf leaf)) /\
    children <> [] /\
    Forall (fun kv => is_dict (snd kv) = false) children /\
    depth (Node node children) = 1%nat.
Proof.
  intros _ Hrows Hb Hlt.
  destruct (best_column_index info_gain data node gain Hb) as [i Hi].
  exists (map (cell i) (rows data)).
  eexists. split; [unfold getitem; now rewrite Hi|].
  split; [apply (build_tree_pruned info_gain threshold fuel data node gain i Hb Hi Hlt)|].
  split; [rewrite map_map; apply map_id|].
  split; [|split; [|split]].
  - intros v Hv.
    destruct (branch_labels data node i v Hi Hv)
      as (lbl & leaf & rest & Hsub & Hl & Hget & Hu).
    exists (sub_frame data node v), lbl, (label_cells (sub_frame data node v)),
      leaf, rest.
    repeat (split; [assumption|]). split.
    + apply (np_unique_head_least _ _ _ Hu).
    + rewrite (children_get_map
                 (fun v => Leaf (hd (VInt 0)
                                    (np_unique (label_cells (sub_frame data node v)))))
                 _ v Hv).
      now rewrite Hu.
  - intros E. apply map_eq_nil in E. revert E. apply np_unique_nonempty.
    destruct (rows data); [congruence | discriminate].
  - apply Forall_forall. intros kv Hkv. apply in_map_iff in Hkv.
    destruct Hkv as (v & <- & _). reflexivity.
  - apply (depth_of_leaves node
             (fun v => hd (VInt 0) (np_unique (label_cells (sub_frame data node v))))).
Qed.

(** C10.  On a frame with at least one row, the loop of [build_tree] runs
    over at least one value; the sub-table of every value it enumerates has
    a row, its labels have a first distinct value, so [column_values[0]]
    is defined, and [build_tree] raises no [IndexError] whatever the
    recursion budget. *)
Theorem build_tree_subsets_nonempty
    (info_gain : DataFrame -> string -> Q) (threshold : Q)
    (data : DataFrame) (node : string) (gain : Q) :
  rows data <> [] ->
  find_best_column info_gain data = Ok (node, gain) ->
  (exists col,
     getitem data node = Ok col /\
     np_unique col <> [] /\
     forall v, In v (np_unique col) ->
       exists sub_table lbl labels leaf,
         get_sub_table data node v = Ok sub_table /\
         rows sub_table <> [] /\
         label_key data = Ok lbl /\
         getitem sub_table lbl = Ok labels /\
         first_item (np_unique labels) = Ok leaf) /\
  forall fuel, build_tree info_gain threshold fuel data <> Raise IndexError.
Proof.
  intros Hrows Hb. split; [|intros fuel; apply build_tree_never_IndexError].
  destruct (best_column_index info_gain data node gain Hb) as [i Hi].
  exists (map (cell i) (rows data)).
  split; [unfold getitem; now rewrite Hi|]. split.
  - apply np_unique_nonempty. destruct (rows data); [congruence | discriminate].
  - intros v Hv.
    destruct (branch_labels data node i v Hi Hv)
      as (lbl & leaf & rest & Hsub & Hl & Hget & Hu).
    exists (sub_frame data node v), lbl, (label_cells (sub_frame data node v)), leaf.
    split; [exact Hsub|].
    split; [apply (sub_frame_nonempty data node i v Hi Hv)|].
    split; [exact Hl|]. split; [exact Hget|]. now rewrite Hu.
Qed.

Lemma build_tree_built_on (info_gain : DataFrame -> string -> Q)
    (threshold : Q) (fuel : nat) :
  forall (data : DataFrame) (t : pytree),
    build_tree info_gain threshold fuel data = Ok t ->
    is_dict t = true /\ built_on data t.
Proof.
  induction fuel as [|fuel IH]; intros data t H; [discriminate|].
  destruct (find_best_column info_gain data) as [[node gain]|e|] eqn:Hb;
    try (cbn [build_tree] in H; rewrite Hb in H; discriminate).
  destruct (best_column_index info_gain data node gain Hb) as [i Hi].
  rewrite (build_tree_step info_gain threshold fuel data node gain i Hb Hi) in H.
  destruct (for_each _ _) as [kids| |] eqn:Hloop; try discriminate.
  simpl in H. injection H as <-. split; [reflexivity|].
  apply for_each_inv in Hloop.
  assert (Hkeys : map fst kids = np_unique (map (cell i) (rows data))).
  { apply (Forall2_map_fst _ _ _ Hloop). intros v b Hv Hbr.
    destruct (build_branch_cases threshold (build_tree info_gain threshold fuel)
                data node gain i v Hi Hv) as (leaf & rest & _ & Hc).
    rewrite Hc in Hbr. destruct (Qltb gain threshold); [now injection Hbr as <-|].
    destruct (Nat.eqb _ 1); [now injection Hbr as <-|].
    destruct (build_tree info_gain threshold fuel (sub_frame data node v));
      try discriminate. now injection Hbr as <-. }
  apply (built_on_node data node kids (map (cell i) (rows data))).
  - unfold getitem. now rewrite Hi.
  - exact Hkeys.
  - rewrite Hkeys. apply np_unique_NoDup.
  - intros v. rewrite Hkeys. apply np_unique_In.
  - intros v sub Hin.
    destruct (Forall2_In_right _ _ _ _ Hloop Hin) as (w & Hw & Hbr).
    destruct (build_branch_cases threshold (build_tree info_gain threshold fuel)
                data node gain i w Hi Hw) as (leaf & rest & _ & Hc).
    rewrite Hc in Hbr.
    assert (Hsub : get_sub_table data node w = Ok (sub_frame data node w))
      by apply (get_sub_table_rows data node w i Hi).
    destruct (Qltb gain threshold).
    { injection Hbr as <- <-. eexists. split; [exact Hsub | constructor]. }
    destruct (Nat.eqb _ 1).
    { injection Hbr as <- <-. eexists. split; [exact Hsub | constructor]. }
    destruct (build_tree info_gain threshold fuel (sub_frame data node w))
      as [t'| |] eqn:Hrec; try discriminate.
    injection Hbr as <- <-. eexists. split; [exact Hsub|].
    now apply IH.
Qed.

(** C7.  A tree returned by [build_tree] is a dictionary, and every
    dictionary in it holds one column and one entry per distinct value of
    that column in the frame (the sub-table, below the root) it was built
    from: no value of the column lacks an entry, no entry has a key
    outside the column, and no key occurs twice. *)
Theorem build_tree_children_per_value
    (info_gain : DataFrame -> string -> Q) (threshold : Q) (fuel : nat)
    (data : DataFrame) (t : pytree) :
  build_tree info_gain threshold fuel data = Ok t ->
  (exists node children, t = Node node children) /\ built_on data t.
Proof.
  intros H. apply build_tree_built_on in H. destruct H as [Hd Hb].
  split; [|exact Hb]. destruct t as [l|node children]; [discriminate|].
  now exists node, children.
Qed.

(* ------------------------------------------------------------------ *)
(** *** Termination *)

Section Termination.

Variable info_gain : DataFrame -> string -> Q.
Variable threshold : Q.

(** A column with a single distinct value is pruned by the threshold. *)
Hypothesis constant_column_pruned :
  forall (d : DataFrame) (c : string) (col : list value),
    getitem d c = Ok col ->
    length (np_unique col) = 1%nat ->
    (info_gain d c < threshold)%Q.

Lemma recursive_call_strict (data : DataFrame) (node : string) (gain : Q)
    (i : nat) (v : value) :
  find_best_column info_gain data = Ok (node, gain) ->
  col_index (columns data) node = Some i ->
  In v (np_unique (map (cell i) (rows data))) ->
  Qltb gain threshold = false ->
  (length (rows (sub_frame data node v)) < length (rows data))%nat.
Proof.
  intros Hb Hi Hv Hge. apply (sub_frame_strict data node i v Hi).
  apply find_best_column_Ok in Hb. destruct Hb as [_ ->].
  apply Qltb_ge in Hge.
  destruct (np_unique (map (cell i) (rows data))) as [|a [|b rest]] eqn:Hu;
    [contradiction | | simpl; lia].
  exfalso. apply (Qle_not_lt _ _ Hge).
  apply (constant_column_pruned data node (map (cell i) (rows data)));
    [unfold getitem; now rewrite Hi | now rewrite Hu].
Qed.

Lemma build_tree_enough_fuel (fuel : nat) :
  forall data : DataFrame,
    (length (rows data) < fuel)%nat ->
    feature_keys data <> [] ->
    exists t, build_tree info_gain threshold fuel data = Ok t.
Proof.
  induction fuel as [|fuel IH]; intros data Hlen Hkeys; [lia|].
  destruct (find_best_column_scan info_gain data Hkeys) as (k & _ & Hb & _).
  cbv zeta in Hb.
  destruct (best_column_index info_gain data _ _ Hb) as [i Hi].
  rewrite (build_tree_step info_gain threshold fuel data _ _ i Hb Hi).
  match goal with
  | |- exists t, bind ?m _ = _ =>
      assert (Hloop : exists kids, m = Ok kids);
      [|destruct Hloop as [kids ->]; simpl; eauto]
  end.
  apply for_each_total. intros v Hv.
  destruct (build_branch_cases threshold (build_tree info_gain threshold fuel)
              data _ (info_gain data (nth k (feature_keys data) EmptyString))
              i v Hi Hv) as (leaf & rest & _ & ->).
  destruct (Qltb _ threshold) eqn:Hge; [eauto|].
  destruct (Nat.eqb _ 1); [eauto|].
  destruct (IH (sub_frame data (nth k (feature_keys data) EmptyString) v))
    as [t Ht].
  - pose proof (recursive_call_strict data _ _ i v Hb Hi Hv Hge). lia.
  - exact Hkeys.
  - rewrite Ht. simpl. eauto.
Qed.

End Termination.

(** C3, as amended.  Provided the threshold prunes every column that has
    a single distinct value (its gain is below the threshold), [build_tree]
    returns a tree on every well-formed frame (distinct column names, one
    cell per column, one kind of cell per column) with at least one
    feature column, within
    a recursion budget of one more than the number of rows; and whenever
    the selected column is not pruned, the sub-table of each of its values,
    on which the recursive call is made, has strictly fewer rows than the
    frame. *)
Theorem build_tree_terminates
    (info_gain : DataFrame -> string -> Q) (threshold : Q) (data : DataFrame) :
  (forall (d : DataFrame) (c : string) (col : list value),
     getitem d c = Ok col ->
     length (np_unique col) = 1%nat ->
     (info_gain d c < threshold)%Q) ->
  wf_frame data = true ->
  feature_keys data <> [] ->
  (forall fuel, (length (rows data) < fuel)%nat ->
     exists t, build_tree info_gain threshold fuel data = Ok t) /\
  (forall node gain col v sub_table,
     find_best_column info_gain data = Ok (node, gain) ->
     ~ (gain < threshold)%Q ->
     getitem data node = Ok col ->
     In v (np_unique col) ->
     get_sub_table data node v = Ok sub_table ->
     (length (rows sub_table) < length (rows data))%nat).
Proof.
  intros Hconst _ Hkeys. split.
  - intros fuel Hlen.
    apply (build_tree_enough_fuel info_gain threshold Hconst fuel data Hlen Hkeys).
  - intros node gain col v sub_table Hb Hge Hcol Hv Hsub.
    destruct (best_column_index info_gain data node gain Hb) as [i Hi].
    unfold getitem in Hcol. rewrite Hi in Hcol. injection Hcol as <-.
    rewrite (get_sub_table_rows data node v i Hi) in Hsub.
    injection Hsub as <-.
    apply (recursive_call_strict info_gain threshold Hconst data node gain i v
             Hb Hi Hv).
    destruct (Qltb gain threshold) eqn:E; [|reflexivity].
    apply Qltb_lt in E. contradiction.
Qed.

(** On [constant_column_frame], a threshold that does not prune the
    constant column sends [build_tree] back to the same frame. *)
Lemma build_tree_constant_column
    (info_gain : DataFrame -> string -> Q) (threshold : Q) (fuel : nat) :
  Qltb (info_gain constant_column_frame "A"%string) threshold = false ->
  build_tree info_gain threshold fuel constant_column_frame = OutOfFuel.
Proof.
  intros Hge. induction fuel as [|fuel IH]; [reflexivity|].
  cbn [build_tree]. unfold find_best_column. cbn -[build_tree Qltb].
  unfold build_branch. cbn -[build_tree Qltb].
  rewrite Hge. change (mkFrame _ _) with constant_column_frame.
  rewrite IH. reflexivity.
Qed.

(** C3, as stated, fails: with threshold 0 and a gain of 0 for the constant
    column, the well-formed two-row frame [constant_column_frame] is its
    own sub-table for the only value of the selected column, and no
    recursion budget lets [build_tree] return. *)
Lemma build_tree_zero_threshold_diverges :
  wf_frame constant_column_frame = true /\
  rows constant_column_frame <> [] /\
  feature_keys constant_column_frame <> [] /\
  find_best_column zero_gain constant_column_frame = Ok ("A"%string, 0%Q) /\
  get_sub_table constant_column_frame "A"%string (VInt 1)
  = Ok constant_column_frame /\
  ~ (length (rows constant_column_frame)
     < length (rows constant_column_frame))%nat /\
  ~ exists fuel t,
      build_tree zero_gain 0%Q fuel constant_column_frame = Ok t.
Proof.
  split; [reflexivity|]. split; [discriminate|]. split; [discriminate|].
  split; [reflexivity|]. split; [reflexivity|]. split; [lia|].
  intros (fuel & t & H).
  rewrite (build_tree_constant_column zero_gain 0%Q fuel) in H;
    [discriminate | reflexivity].
Qed.

(* ================================================================== *)
(** ** Predictor *)

Lemma pytree_induction (P : pytree -> Prop) :
  (forall l, P (Leaf l)) ->
  (forall node children,
     Forall (fun kv => P (snd kv)) children -> P (Node node children)) ->
  forall t, P t.
Proof.
  intros HL HN. fix IH 1. intros [l|node children]; [apply HL|].
  apply HN. induction children as [|[v sub] children IHc]; constructor.
  - apply IH.
  - exact IHc.
Qed.

(** [predict] on a dictionary, by its two lookups. *)
Lemma predict_node (node : string) (children : list (value * pytree))
    (data : record) :
  predict (Node node children) data
  = match record_get data node with
    | None => Ok (VInt 0)
    | Some v =>
        match children_get children v with
        | None => Ok (VInt 0)
        | Some (Leaf l) => Ok l
        | Some (Node n c) => predict (Node n c) data
        end
    end.
Proof.
  cbn [predict]. destruct (record_get data node) as [v|]; [|reflexivity].
  induction children as [|[k sub] children IH]; [reflexivity|].
  cbn [children_get]. destruct (value_eqb k v); [|exact IH].
  destruct sub; reflexivity.
Qed.

Lemma children_get_In (children : list (value * pytree)) (v : value)
    (sub : pytree) :
  children_get children v = Some sub -> In (v, sub) children.
Proof.
  induction children as [|[k t] children IH]; simpl; [discriminate|].
  destruct (value_eqb k v) eqn:E.
  - apply value_eqb_eq in E. subst. intros H. injection H as ->. now left.
  - intros H. right. now apply IH.
Qed.

Lemma leaves_child (node : string) (children : list (value * pytree))
    (v : value) (sub : pytree) (x : value) :
  In (v, sub) children -> In x (leaves sub) ->
  In x (leaves (Node node children)).
Proof.
  cbn [leaves]. induction children as [|[k t] children IH]; simpl; [tauto|].
  intros [E|Hin] Hx; apply in_or_app.
  - injection E as -> ->. now left.
  - right. now apply IH.
Qed.

Lemma predict_dict (data : record) (t : pytree) :
  is_dict t = true ->
  (misses data t -> predict t data = Ok (VInt 0)) /\
  (~ misses data t ->
   exists l, predict t data = Ok l /\ In l (leaves t)).
Proof.
  induction t as [l|node children IH] using pytree_induction; [discriminate|].
  intros _. rewrite predict_node.
  destruct (record_get data node) as [v|] eqn:Hr.
  2:{ split; [reflexivity|]. intros Hm. exfalso. apply Hm.
      now apply misses_column. }
  destruct (children_get children v) as [sub|] eqn:Hc.
  2:{ split; [reflexivity|]. intros Hm. exfalso. apply Hm.
      now apply (misses_branch data node children v). }
  pose proof (children_get_In _ _ _ Hc) as Hin.
  destruct sub as [l|n c].
  - split.
    + intros Hm. inversion Hm as [? ? E|? ? ? E1 E2|? ? ? ? E1 E2 Hsub]; subst;
        try congruence.
      rewrite Hr in E1. injection E1 as <-. rewrite Hc in E2.
      injection E2 as <-. inversion Hsub.
    + intros _. exists l. split; [reflexivity|].
      apply (leaves_child node children v (Leaf l) l Hin). now left.
  - rewrite Forall_forall in IH.
    destruct (IH _ Hin eq_refl) as [IHm IHn]. cbn [snd] in IHm, IHn. split.
    + intros Hm. apply IHm.
      inversion Hm as [? ? E|? ? ? E1 E2|? ? ? ? E1 E2 Hsub]; subst;
        congruence.
    + intros Hn. destruct IHn as (l & Hl & Hleaf).
      * intros Hsub. apply Hn.
        now apply (misses_below data node children v (Node n c)).
      * exists l. split; [exact Hl|].
        now apply (leaves_child node children v (Node n c) l Hin).
Qed.

Lemma predict_dict_total (data : record) (t : pytree) :
  is_dict t = true ->
  exists p, predict t data = Ok p /\ (p = VInt 0 \/ In p (leaves t)).
Proof.
  induction t as [l|node children IH] using pytree_induction; [discriminate|].
  intros _. rewrite predict_node.
  destruct (record_get data node) as [v|]; [|eauto].
  destruct (children_get children v) as [sub|] eqn:Hc; [|eauto].
  pose proof (children_get_In _ _ _ Hc) as Hin.
  destruct sub as [l|n c].
  - exists l. split; [reflexivity|]. right.
    apply (leaves_child node children v (Leaf l) l Hin). now left.
  - rewrite Forall_forall in IH.
    destruct (IH _ Hin eq_refl) as (p & Hp & [->|Hleaf]); cbn [snd] in Hp.
    + eauto.
    + exists p. split; [exact Hp|]. right.
      now apply (leaves_child node children v (Node n c) p Hin).
Qed.

(** C2.  On a tree returned by [build_tree], [predict] raises nothing for
    any record: it returns the sentinel 0 or a label of a leaf of the tree.
    It returns 0 when the walk reaches a dictionary whose column is not in
    the record or whose entry for the record's value is missing, at the
    root in particular, and a leaf label of the tree otherwise. *)
Theorem predict_never_raises
    (info_gain : DataFrame -> string -> Q) (threshold : Q) (fuel : nat)
    (train : DataFrame) (tree : pytree) (data : record) :
  build_tree info_gain threshold fuel train = Ok tree ->
  (exists p, predict tree data = Ok p /\ (p = VInt 0 \/ In p (leaves tree))) /\
  (misses data tree -> predict tree data = Ok (VInt 0)) /\
  (~ misses data tree ->
   exists l, predict tree data = Ok l /\ In l (leaves tree)) /\
  exists node children,
    tree = Node node children /\
    (record_get data node = None -> predict tree data = Ok (VInt 0)) /\
    (forall v, record_get data node = Some v ->
               children_get children v = None ->
               predict tree data = Ok (VInt 0)).
Proof.
  intros H. apply build_tree_built_on in H. destruct H as [Hd _].
  split; [now apply predict_dict_total|].
  destruct (predict_dict data tree Hd) as [Hm Hn].
  split; [exact Hm|]. split; [exact Hn|].
  destruct tree as [l|node children]; [discriminate|].
  exists node, children. split; [reflexivity|]. split.
  - intros Hr. apply Hm. now apply misses_column.
  - intros v Hr Hc. apply Hm. now apply (misses_branch data node children v).
Qed.

(** C9, as amended.  [predict] returns the label of a leaf when the leaf
    is the entry selected by the record in a dictionary; a bare label
    passed as the tree has no [keys] and the call raises
    [AttributeError]. *)
Theorem predict_leaf_entry (data : record) (l : value) :
  predict (Leaf l) data = Raise AttributeError /\
  forall node children v,
    record_get data node = Some v ->
    children_get children v = Some (Leaf l) ->
    predict (Node node children) data = Ok l.
Proof.
  split; [reflexivity|]. intros node children v Hr Hc.
  now rewrite predict_node, Hr, Hc.
Qed.

(** C9, as stated, fails: on the bare leaf [yes], [predict] raises
    [AttributeError] and does not return [yes]. *)
Lemma predict_bare_leaf_raises :
  predict (Leaf (VStr "yes")) [("A"%string, VInt 1)] = Raise AttributeError /\
  predict (Leaf (VStr "yes")) [("A"%string, VInt 1)] <> Ok (VStr "yes").
Proof. split; [reflexivity | discriminate]. Qed.

(* ================================================================== *)
(** ** Evaluation loop *)






(* ================================================================== *)
(** ** The worked example *)

Example and_frame_well_formed : wf_frame and_frame = true.
Proof. reflexivity. Qed.

Example and_frame_tree :
  build_tree example_gain (1 # 100) 2 and_frame
  = Ok (Node "A"
          [(VInt 0, Leaf (VStr "no"));
           (VInt 1, Node "B" [(VInt 0, Leaf (VStr "no"));
                              (VInt 1, Leaf (VStr "yes"))])]).
Proof. reflexivity. Qed.

Example and_frame_predict_seen :
  predict (Node "A"
             [(VInt 0, Leaf (VStr "no"));
              (VInt 1, Node "B" [(VInt 0, Leaf (VStr "no"));
                                 (VInt 1, Leaf (VStr "yes"))])])
          [("A"%string, VInt 1); ("B"%string, VInt 1)]
  = Ok (VStr "yes").
Proof. reflexivity. Qed.

Example and_frame_predict_unseen :
  predict (Node "A"
             [(VInt 0, Leaf (VStr "no"));
              (VInt 1, Node "B" [(VInt 0, Leaf (VStr "no"));
                                 (VInt 1, Leaf (VStr "yes"))])])
          [("A"%string, VInt 1); ("B"%string, VInt 5)]
  = Ok (VInt 0).
Proof. reflexivity. Qed.

Example and_frame_pruned_tree :
  build_tree example_gain (99 # 100) 1 and_frame
  = Ok (Node "A" [(VInt 0, Leaf (VStr "no")); (VInt 1, Leaf (VStr "no"))]).
Proof. reflexivity. Qed.

Lemma example_gain_constant_column (d : DataFrame) (c : string)
    (col : list value) :
  getitem d c = Ok col ->
  length (np_unique col) = 1%nat ->
  (example_gain d c < 1 # 100)%Q.
Proof.
  intros Hg Hone. unfold example_gain. rewrite Hg, Hone. reflexivity.
Qed.

(* ------------------------------------------------------------------ *)
(** ** Instances of the theorems *)

Lemma find_best_column_first_maximum_witness :
  columns and_frame = ["A"; "B"]%string ++ ["Y"%string] /\
  ["A"; "B"]%string <> [] /\
  exists k : nat,
    (k < length ["A"; "B"]%string)%nat /\
    find_best_column example_gain and_frame
    = Ok (nth k ["A"; "B"]%string EmptyString,
          example_gain and_frame (nth k ["A"; "B"]%string EmptyString)).
Proof.
  assert (H1 : columns and_frame = ["A"; "B"]%string ++ ["Y"%string])
    by reflexivity.
  assert (H2 : ["A"; "B"]%string <> []) by discriminate.
  split; [exact H1|]. split; [exact H2|].
  destruct (find_best_column_first_maximum example_gain and_frame
              ["A"; "B"]%string "Y"%string H1 H2)
    as (k & Hk & Hb & _).
  exists k. split; [exact Hk | exact Hb].
Defined.

Lemma get_sub_table_first_hundred_witness :
  nodupb (icolumns long_frame) = true /\
  In "A"%string (icolumns long_frame) /\
  (100 < length (filter (matches (frame_of long_frame) "A" (VInt 1))
                        (rows (frame_of long_frame))))%nat /\
  exists sub : IndexedFrame,
    get_sub_table_indexed long_frame "A" (VInt 1) = Ok sub /\
    length (irows sub) = 100%nat /\
    map fst (irows sub) = map Z.of_nat (seq 0 100) /\
    map snd (irows sub)
    = firstn 100 (filter (matches (frame_of long_frame) "A" (VInt 1))
                         (rows (frame_of long_frame))).
Proof.
  assert (H1 : nodupb (icolumns long_frame) = true) by reflexivity.
  assert (H2 : In "A"%string (icolumns long_frame)) by (simpl; auto).
  assert (H3 : (100 < length (filter (matches (frame_of long_frame) "A" (VInt 1))
                                     (rows (frame_of long_frame))))%nat).
  { apply Nat.ltb_lt. vm_compute. reflexivity. }
  split; [exact H1|]. split; [exact H2|]. split; [exact H3|].
  destruct (get_sub_table_first_hundred long_frame "A" (VInt 1) H1 H2)
    as (sub & Hs & _ & _ & Hidx & _ & Hcap).
  destruct (Hcap H3) as [Hrows Hlen].
  exists sub. split; [exact Hs|]. split; [exact Hlen|].
  split; [|exact Hrows]. rewrite Hlen in Hidx. exact Hidx.
Defined.


Lemma build_tree_gain_below_threshold_witness :
  wf_frame and_frame = true /\
  rows and_frame <> [] /\
  find_best_column example_gain and_frame = Ok ("A"%string, 2 # 4) /\
  (2 # 4 < 99 # 100)%Q /\
  exists col children,
    getitem and_frame "A" = Ok col /\
    build_tree example_gain (99 # 100) 1 and_frame = Ok (Node "A" children) /\
    depth (Node "A" children) = 1%nat.
Proof.
  assert (H1 : rows and_frame <> []) by discriminate.
  assert (H2 : find_best_column example_gain and_frame = Ok ("A"%string, 2 # 4))
    by reflexivity.
  assert (H3 : (2 # 4 < 99 # 100)%Q) by reflexivity.
  split; [reflexivity|].
  split; [exact H1|]. split; [exact H2|]. split; [exact H3|].
  destruct (build_tree_gain_below_threshold example_gain (99 # 100) 0
              and_frame "A" (2 # 4) eq_refl H1 H2 H3)
    as (col & children & Hg & Hb & _ & _ & _ & _ & Hd).
  exists col, children. split; [exact Hg|]. split; [exact Hb | exact Hd].
Defined.

Lemma build_tree_subsets_nonempty_witness :
  rows and_frame <> [] /\
  find_best_column example_gain and_frame = Ok ("A"%string, 2 # 4) /\
  forall fuel,
    build_tree example_gain (1 # 100) fuel and_frame <> Raise IndexError.
Proof.
  assert (H1 : rows and_frame <> []) by discriminate.
  assert (H2 : find_best_column example_gain and_frame = Ok ("A"%string, 2 # 4))
    by reflexivity.
  split; [exact H1|]. split; [exact H2|].
  exact (proj2 (build_tree_subsets_nonempty example_gain (1 # 100)
                  and_frame "A" (2 # 4) H1 H2)).
Defined.

Lemma build_tree_children_per_value_witness :
  build_tree example_gain (1 # 100) 2 and_frame
  = Ok (Node "A"
          [(VInt 0, Leaf (VStr "no"));
           (VInt 1, Node "B" [(VInt 0, Leaf (VStr "no"));
                              (VInt 1, Leaf (VStr "yes"))])]) /\
  built_on and_frame
    (Node "A"
       [(VInt 0, Leaf (VStr "no"));
        (VInt 1, Node "B" [(VInt 0, Leaf (VStr "no"));
                           (VInt 1, Leaf (VStr "yes"))])]).
Proof.
  assert (H : build_tree example_gain (1 # 100) 2 and_frame
              = Ok (Node "A"
                      [(VInt 0, Leaf (VStr "no"));
                       (VInt 1, Node "B" [(VInt 0, Leaf (VStr "no"));
                                          (VInt 1, Leaf (VStr "yes"))])]))
    by reflexivity.
  split; [exact H|].
  exact (proj2 (build_tree_children_per_value example_gain (1 # 100) 2
                  and_frame _ H)).
Defined.

Lemma build_tree_terminates_witness :
  wf_frame and_frame = true /\
  feature_keys and_frame <> [] /\
  exists t, build_tree example_gain (1 # 100) 5 and_frame = Ok t.
Proof.
  assert (H : feature_keys and_frame <> []) by discriminate.
  split; [reflexivity|]. split; [exact H|].
  destruct (build_tree_terminates example_gain (1 # 100) and_frame
              example_gain_constant_column eq_refl H) as [Hfuel _].
  apply Hfuel. simpl. lia.
Defined.

Lemma predict_never_raises_witness :
  build_tree example_gain (1 # 100) 2 and_frame
  = Ok (Node "A"
          [(VInt 0, Leaf (VStr "no"));
           (VInt 1, Node "B" [(VInt 0, Leaf (VStr "no"));
                              (VInt 1, Leaf (VStr "yes"))])]) /\
  exists p,
    predict (Node "A"
               [(VInt 0, Leaf (VStr "no"));
                (VInt 1, Node "B" [(VInt 0, Leaf (VStr "no"));
                                   (VInt 1, Leaf (VStr "yes"))])])
            [("A"%string, VInt 1); ("B"%string, VInt 5)] = Ok p.
Proof.
  assert (H : build_tree example_gain (1 # 100) 2 and_frame
              = Ok (Node "A"
                      [(VInt 0, Leaf (VStr "no"));
                       (VInt 1, Node "B" [(VInt 0, Leaf (VStr "no"));
                                          (VInt 1, Leaf (VStr "yes"))])]))
    by reflexivity.
  split; [exact H|].
  destruct (predict_never_raises example_gain (1 # 100) 2 and_frame _
              [("A"%string, VInt 1); ("B"%string, VInt 5)] H)
    as [(p & Hp & _) _].
  exists p. exact Hp.
Defined.

Lemma predict_leaf_entry_witness :
  record_get [("A"%string, VInt 0)] "A" = Some (VInt 0) /\
  children_get [(VInt 0, Leaf (VStr "no"))] (VInt 0) = Some (Leaf (VStr "no")) /\
  predict (Node "A" [(VInt 0, Leaf (VStr "no"))]) [("A"%string, VInt 0)]
  = Ok (VStr "no").
Proof.
  split; [reflexivity|]. split; [reflexivity|].
  exact (proj2 (predict_leaf_entry [("A"%string, VInt 0)] (VStr "no"))
               "A"%string [(VInt 0, Leaf (VStr "no"))] (VInt 0)
               eq_refl eq_refl).
Defined.


Example and_frame_pruned_score :
  test (Node "A" [(VInt 0, Leaf (VStr "no")); (VInt 1, Leaf (VStr "no"))])
       and_frame (mkEvaluator 0 [])
  = Ok (mkEvaluator 3 [VStr "no"; VStr "no"; VStr "no"; VStr "no"],
        mkReport 3 1 (750000 # 10000)).
Proof. reflexivity. Qed.

(* ================================================================== *)
(** ** Further properties of the column selector and the partitioner *)

Lemma removelast_nil_iff {A : Type} (l : list A) :
  removelast l = [] <-> (length l <= 1)%nat.
Proof.
  destruct l as [|a [|b l]]; simpl; split; intros H;
    try reflexivity; try lia; try discriminate.
Qed.

(** X1.  [find_best_column] raises exactly when the frame has at most one
    column, that is no column besides the label; the exception is then
    [ValueError], and no other outcome but a result is possible. *)
Theorem find_best_column_ValueError_iff
    (info_gain : DataFrame -> string -> Q) (data : DataFrame) :
  (find_best_column info_gain data = Raise ValueError
   <-> (length (columns data) <= 1)%nat) /\
  (forall e, find_best_column info_gain data = Raise e -> e = ValueError) /\
  find_best_column info_gain data <> OutOfFuel.
Proof.
  rewrite <- removelast_nil_iff. fold (feature_keys data).
  destruct (feature_keys data) as [|c0 cs] eqn:Hk.
  - rewrite (find_best_column_empty info_gain data Hk).
    split; [tauto|]. split; [congruence | discriminate].
  - destruct (find_best_column_scan info_gain data) as (k & _ & Hb & _).
    { rewrite Hk. discriminate. }
    cbv zeta in Hb. rewrite Hb.
    split; [split; discriminate|]. split; discriminate.
Qed.

Lemma col_index_None (cols : list string) (c : string) :
  col_index cols c = None <-> ~ In c cols.
Proof.
  split.
  - intros H Hin. destruct (col_index_In _ _ Hin) as (i & Hi & _). congruence.
  - intros H. destruct (col_index cols c) as [i|] eqn:E; [|reflexivity].
    exfalso. apply H. now apply (col_index_Some cols c i).
Qed.

(** X2.  On a frame with pairwise distinct column names, [get_sub_table]
    raises exactly when the column is not a column of the frame; the
    exception is then [KeyError]. *)
Theorem get_sub_table_KeyError_iff
    (data : DataFrame) (column : string) (label : value) :
  nodupb (columns data) = true ->
  (get_sub_table data column label = Raise KeyError
   <-> ~ In column (columns data)) /\
  (forall e, get_sub_table data column label = Raise e -> e = KeyError) /\
  get_sub_table data column label <> OutOfFuel.
Proof.
  intros _. rewrite <- col_index_None.
  destruct (col_index (columns data) column) as [i|] eqn:Hi.
  - rewrite (get_sub_table_rows data column label i Hi).
    split; [split; discriminate|]. split; discriminate.
  - unfold get_sub_table. rewrite Hi.
    split; [tauto|]. split; [congruence | discriminate].
Qed.

Lemma matches_sub_frame (data : DataFrame) (column : string) (v w : value)
    (c : string) (r : list value) :
  matches (sub_frame data column v) c w r = matches data c w r.
Proof. reflexivity. Qed.

Lemma filter_all {A : Type} (f : A -> bool) (l : list A) :
  Forall (fun x => f x = true) l -> filter f l = l.
Proof.
  induction 1 as [|x l Hx _ IH]; simpl; [reflexivity|].
  now rewrite Hx, IH.
Qed.

Lemma filter_none {A : Type} (f : A -> bool) (l : list A) :
  Forall (fun x => f x = false) l -> filter f l = [].
Proof.
  induction 1 as [|x l Hx _ IH]; simpl; [reflexivity|].
  now rewrite Hx.
Qed.

Lemma Forall_firstn {A : Type} (P : A -> Prop) (n : nat) (l : list A) :
  Forall P l -> Forall P (firstn n l).
Proof.
  intros H. revert n. induction H as [|x l Hx _ IH]; intros [|n]; simpl;
    constructor; auto.
Qed.

Lemma In_firstn {A : Type} (x : A) (n : nat) (l : list A) :
  In x (firstn n l) -> In x l.
Proof.
  revert n. induction l as [|a l IH]; intros [|n]; simpl; try tauto.
  intros [->|H]; [now left | right; eauto].
Qed.

Lemma sub_frame_rows_match (data : DataFrame) (column : string) (v : value) :
  Forall (fun r => matches data column v r = true)
         (rows (sub_frame data column v)).
Proof.
  cbn [sub_frame rows]. apply Forall_firstn, Forall_forall.
  intros r Hr. now apply filter_In in Hr.
Qed.

Lemma sub_frame_rows_In (data : DataFrame) (column : string) (v : value)
    (r : list value) :
  In r (rows (sub_frame data column v)) -> In r (rows data).
Proof.
  cbn [sub_frame rows]. intros H. apply In_firstn in H.
  now apply filter_In in H.
Qed.

Lemma sub_frame_length (data : DataFrame) (column : string) (v : value) :
  (length (rows (sub_frame data column v)) <= 100)%nat /\
  (length (rows (sub_frame data column v)) <= length (rows data))%nat.
Proof.
  cbn [sub_frame rows]. rewrite length_firstn.
  pose proof (filter_length_le (matches data column v) (rows data)). lia.
Qed.

(** X3.  The frame returned by [get_sub_table] never has more than 100 rows nor
    more rows than the input; each of its rows is a row of the input whose
    cell in the column is the requested value. *)
Theorem get_sub_table_bounded
    (data : DataFrame) (column : string) (label : value) (sub : DataFrame) :
  get_sub_table data column label = Ok sub ->
  (length (rows sub) <= 100)%nat /\
  (length (rows sub) <= length (rows data))%nat /\
  forall r, In r (rows sub) ->
    In r (rows data) /\ row_item (columns data) r column = label.
Proof.
  intros H. destruct (col_index (columns data) column) as [i|] eqn:Hi.
  2:{ unfold get_sub_table in H. rewrite Hi in H. discriminate. }
  rewrite (get_sub_table_rows data column label i Hi) in H. injection H as <-.
  change (mkFrame _ _) with (sub_frame data column label).
  destruct (sub_frame_length data column label) as [H1 H2].
  split; [exact H1|]. split; [exact H2|]. intros r Hr. split.
  - now apply (sub_frame_rows_In data column label).
  - pose proof (sub_frame_rows_match data column label) as Hall.
    rewrite Forall_forall in Hall. specialize (Hall r Hr).
    now apply value_eqb_eq in Hall.
Qed.

(** X4.  Selecting the same value of the same column again changes nothing. *)
Theorem get_sub_table_idempotent
    (data : DataFrame) (column : string) (label : value) (sub : DataFrame) :
  get_sub_table data column label = Ok sub ->
  get_sub_table sub column label = Ok sub.
Proof.
  intros H. destruct (col_index (columns data) column) as [i|] eqn:Hi.
  2:{ unfold get_sub_table in H. rewrite Hi in H. discriminate. }
  rewrite (get_sub_table_rows data column label i Hi) in H. injection H as <-.
  change (mkFrame _ _) with (sub_frame data column label).
  rewrite (get_sub_table_rows (sub_frame data column label) column label i Hi).
  rewrite (filter_ext _ (matches data column label))
    by (intros r; apply matches_sub_frame).
  rewrite filter_all by apply sub_frame_rows_match.
  rewrite firstn_all2 by apply sub_frame_length.
  reflexivity.
Qed.

(** X5.  Selecting another value of the same column in a sub-table leaves no
    row. *)
Theorem get_sub_table_other_value_empty
    (data : DataFrame) (column : string) (v w : value) (sub : DataFrame) :
  get_sub_table data column v = Ok sub ->
  v <> w ->
  get_sub_table sub column w = Ok (mkFrame (columns data) []).
Proof.
  intros H Hne. destruct (col_index (columns data) column) as [i|] eqn:Hi.
  2:{ unfold get_sub_table in H. rewrite Hi in H. discriminate. }
  rewrite (get_sub_table_rows data column v i Hi) in H. injection H as <-.
  change (get_sub_table (sub_frame data column v) column w
          = Ok (mkFrame (columns data) [])).
  rewrite (get_sub_table_rows (sub_frame data column v) column w i Hi).
  cbn [sub_frame columns].
  rewrite (filter_ext _ (matches data column w))
    by (intros r; apply matches_sub_frame).
  rewrite filter_none; [reflexivity|].
  pose proof (sub_frame_rows_match data column v) as Hall.
  rewrite Forall_forall in *. intros r Hr. specialize (Hall r Hr).
  unfold matches in *. apply value_eqb_eq in Hall. apply value_eqb_neq.
  congruence.
Qed.

(* ------------------------------------------------------------------ *)
(** *** Well-formed frames *)

Lemma same_kind_refl (a : value) : same_kind a a = true.
Proof. now destruct a. Qed.

Lemma same_kind_sym (a b : value) : same_kind a b = same_kind b a.
Proof. now destruct a, b. Qed.

Lemma same_kind_trans (a b c : value) :
  same_kind a b = true -> same_kind b c = true -> same_kind a c = true.
Proof. destruct a, b, c; simpl; congruence. Qed.

Lemma rows_agree_refl (r : list value) : rows_agree r r = true.
Proof.
  induction r as [|a r IH]; simpl; [reflexivity|].
  now rewrite same_kind_refl, IH.
Qed.

Lemma rows_agree_sym (r1 r2 : list value) :
  rows_agree r1 r2 = rows_agree r2 r1.
Proof.
  revert r2. induction r1 as [|a r1 IH]; intros [|b r2]; simpl;
    try reflexivity.
  now rewrite same_kind_sym, IH.
Qed.

Lemma rows_agree_trans (r1 r2 r3 : list value) :
  rows_agree r1 r2 = true -> rows_agree r2 r3 = true ->
  rows_agree r1 r3 = true.
Proof.
  revert r2 r3. induction r1 as [|a r1 IH]; intros [|b r2] [|c r3]; simpl;
    try congruence.
  rewrite !andb_true_iff. intros [H1 H2] [H3 H4]. split.
  - now apply (same_kind_trans a b c).
  - now apply (IH r2 r3).
Qed.

(** The rows of a well-formed frame agree pairwise. *)
Lemma rows_agree_pairwise (l : list (list value)) :
  match l with
  | [] => true
  | r :: rest => forallb (rows_agree r) rest
  end = true <->
  forall a b, In a l -> In b l -> rows_agree a b = true.
Proof.
  destruct l as [|r rest]; [simpl; tauto|]. rewrite forallb_forall. split.
  - intros H a b Ha Hb.
    assert (Hr : forall x, In x (r :: rest) -> rows_agree r x = true).
    { intros x [<-|Hx]; [apply rows_agree_refl | now apply H]. }
    apply (rows_agree_trans a r b); [|now apply Hr].
    rewrite rows_agree_sym. now apply Hr.
  - intros H x Hx. apply H; [now left | now right].
Qed.

Lemma wf_frame_rows (cols : list string) (l l' : list (list value)) :
  wf_frame (mkFrame cols l) = true ->
  (forall r, In r l' -> In r l) ->
  wf_frame (mkFrame cols l') = true.
Proof.
  unfold wf_frame. cbn [columns rows]. rewrite !andb_true_iff.
  intros [[Hnd Hlen] Hagree] Hsub. split; [split; [exact Hnd|]|].
  - rewrite forallb_forall in *. intros r Hr. apply Hlen. now apply Hsub.
  - apply rows_agree_pairwise. intros a b Ha Hb.
    apply (proj1 (rows_agree_pairwise l) Hagree); now apply Hsub.
Qed.

(** X6.  [get_sub_table] returns a well-formed frame on a well-formed frame. *)
Theorem get_sub_table_well_formed
    (data : DataFrame) (column : string) (label : value) (sub : DataFrame) :
  wf_frame data = true ->
  get_sub_table data column label = Ok sub ->
  wf_frame sub = true.
Proof.
  intros Hwf H. destruct (col_index (columns data) column) as [i|] eqn:Hi.
  2:{ unfold get_sub_table in H. rewrite Hi in H. discriminate. }
  rewrite (get_sub_table_rows data column label i Hi) in H. injection H as <-.
  apply (wf_frame_rows (columns data) (rows data)).
  - now destruct data.
  - intros r Hr. now apply (sub_frame_rows_In data column label).
Qed.

(* ================================================================== *)
(** ** Further properties of the tree builder *)

Lemma for_each_children_get {A : Type}
    (body : value -> result (value * A)) (l : list value)
    (kids : list (value * A)) :
  for_each body l = Ok kids ->
  (forall a b, In a l -> body a = Ok b -> fst b = a) ->
  Forall2 (fun a b => body a = Ok b /\ fst b = a) l kids.
Proof.
  intros H Hfst. apply for_each_inv in H.
  induction H as [|a b l kids Hab _ IH]; constructor.
  - split; [exact Hab|]. apply Hfst; [now left | exact Hab].
  - apply IH. intros a' b' Ha'. apply Hfst. now right.
Qed.

Lemma children_get_Forall2 (body : value -> result (value * pytree))
    (l : list value) (kids : list (value * pytree)) (v : value) :
  Forall2 (fun a b => body a = Ok b /\ fst b = a) l kids ->
  (forall t, children_get kids v = Some t -> In v l /\ body v = Ok (v, t)) /\
  (In v l -> exists t, children_get kids v = Some t /\ body v = Ok (v, t)).
Proof.
  induction 1 as [|a [k t'] l kids [Hab Hk] _ [IH1 IH2]]; simpl.
  - split; [discriminate | tauto].
  - cbn [fst] in Hk. subst k. destruct (value_eqb a v) eqn:E.
    + apply value_eqb_eq in E. subst a. split.
      * intros t Ht. injection Ht as <-. split; [now left | exact Hab].
      * intros _. exists t'. split; [reflexivity | exact Hab].
    + apply value_eqb_neq in E. split.
      * intros t Ht. destruct (IH1 t Ht) as [Hin Hb]. split; [now right | exact Hb].
      * intros [Ha|Hin]; [contradiction | now apply IH2].
Qed.

Section BuildTreeFacts.

Variable info_gain : DataFrame -> string -> Q.
Variable threshold : Q.

Lemma build_branch_fst (fuel : nat) (data : DataFrame) (node : string)
    (gain : Q) (i : nat) (v : value) (b : value * pytree) :
  col_index (columns data) node = Some i ->
  In v (np_unique (map (cell i) (rows data))) ->
  build_branch threshold (build_tree info_gain threshold fuel) data node gain v
  = Ok b ->
  fst b = v.
Proof.
  intros Hi Hv Hbr.
  destruct (build_branch_cases threshold (build_tree info_gain threshold fuel)
              data node gain i v Hi Hv) as (leaf & rest & _ & Hc).
  rewrite Hc in Hbr. destruct (Qltb gain threshold); [now injection Hbr as <-|].
  destruct (Nat.eqb _ 1); [now injection Hbr as <-|].
  destruct (build_tree info_gain threshold fuel (sub_frame data node v));
    try discriminate. now injection Hbr as <-.
Qed.

(** The result of one level, entry by entry. *)
Lemma build_tree_entries (fuel : nat) (data : DataFrame) (t : pytree) :
  build_tree info_gain threshold (S fuel) data = Ok t ->
  exists node gain i kids,
    find_best_column info_gain data = Ok (node, gain) /\
    col_index (columns data) node = Some i /\
    t = Node node kids /\
    Forall2 (fun v b =>
               build_branch threshold (build_tree info_gain threshold fuel)
                            data node gain v = Ok b /\ fst b = v)
            (np_unique (map (cell i) (rows data))) kids.
Proof.
  intros H.
  destruct (find_best_column info_gain data) as [[node gain]|e|] eqn:Hb;
    try (cbn [build_tree] in H; rewrite Hb in H; discriminate).
  destruct (best_column_index info_gain data node gain Hb) as [i Hi].
  rewrite (build_tree_step info_gain threshold fuel data node gain i Hb Hi) in H.
  destruct (for_each _ _) as [kids| |] eqn:Hloop; try discriminate.
  simpl in H. injection H as <-. exists node, gain, i, kids.
  repeat (split; [reflexivity || assumption|]).
  apply (for_each_children_get _ _ _ Hloop). intros a b Ha Hab.
  now apply (build_branch_fst fuel data node gain i a b Hi Ha).
Qed.

Lemma build_tree_no_raise (fuel : nat) :
  forall (data : DataFrame) (e : exn),
    feature_keys data <> [] ->
    build_tree info_gain threshold fuel data <> Raise e.
Proof.
  induction fuel as [|fuel IH]; intros data e Hk; [discriminate|].
  destruct (find_best_column_scan info_gain data Hk) as (k & _ & Hb & _).
  cbv zeta in Hb.
  destruct (best_column_index info_gain data _ _ Hb) as [i Hi].
  rewrite (build_tree_step info_gain threshold fuel data _ _ i Hb Hi).
  match goal with
  | |- bind ?m _ <> _ =>
      assert (Hloop : m <> Raise e);
      [|destruct m; simpl;
        [discriminate | intros E; apply Hloop; congruence | discriminate]]
  end.
  apply for_each_not_raise. intros v Hv.
  destruct (build_branch_cases threshold (build_tree info_gain threshold fuel)
              data _ (info_gain data (nth k (feature_keys data) EmptyString))
              i v Hi Hv) as (leaf & rest & _ & ->).
  destruct (Qltb _ threshold); [discriminate|].
  destruct (Nat.eqb _ 1); [discriminate|].
  specialize (IH (sub_frame data (nth k (feature_keys data) EmptyString) v) e Hk).
  destruct (build_tree info_gain threshold fuel
              (sub_frame data (nth k (feature_keys data) EmptyString) v));
    simpl; [discriminate | intros E; apply IH; congruence | discriminate].
Qed.

End BuildTreeFacts.

(** X7.  On a well-formed frame (distinct column names, one cell per
    column, one kind of cell per column), [build_tree] raises [ValueError],
    the exception of [find_best_column], exactly when the frame has at most
    one column.  On a frame with a feature column it either returns a tree
    or recurses beyond every budget it is given ([OutOfFuel], which the
    interpreter ends with a [RecursionError]); no other exception leaves
    it, whatever the rows and the threshold. *)
Theorem build_tree_ValueError_iff
    (info_gain : DataFrame -> string -> Q) (threshold : Q) (data : DataFrame) :
  wf_frame data = true ->
  (forall fuel,
     build_tree info_gain threshold (S fuel) data = Raise ValueError
     <-> (length (columns data) <= 1)%nat) /\
  (forall fuel e,
     build_tree info_gain threshold fuel data = Raise e ->
     e = ValueError /\ (length (columns data) <= 1)%nat) /\
  ((1 < length (columns data))%nat ->
   forall fuel,
     (exists t, build_tree info_gain threshold fuel data = Ok t) \/
     build_tree info_gain threshold fuel data = OutOfFuel).
Proof.
  intros _.
  assert (Hraise : forall fuel e,
            build_tree info_gain threshold fuel data = Raise e ->
            feature_keys data = []).
  { intros fuel e H. destruct (feature_keys data) as [|c0 cs] eqn:Hk;
      [reflexivity|]. exfalso.
    apply (build_tree_no_raise info_gain threshold fuel data e);
      [rewrite Hk; discriminate | exact H]. }
  assert (Hempty : forall fuel, feature_keys data = [] ->
            build_tree info_gain threshold (S fuel) data = Raise ValueError).
  { intros fuel Hk. cbn [build_tree].
    now rewrite (find_best_column_empty info_gain data Hk). }
  split; [|split].
  - intros fuel. rewrite <- removelast_nil_iff. split; [apply Hraise | apply Hempty].
  - intros fuel e H. pose proof (Hraise fuel e H) as Hk.
    rewrite <- removelast_nil_iff. split; [|exact Hk].
    destruct fuel as [|fuel]; [discriminate|].
    rewrite (Hempty fuel Hk) in H. congruence.
  - intros Hcols fuel.
    destruct (build_tree info_gain threshold fuel data) as [t|e|] eqn:H.
    + left. now exists t.
    + exfalso. apply Hraise in H. apply removelast_nil_iff in H. lia.
    + now right.
Qed.

(** X8.  On a frame with a feature column and no row, [build_tree] returns a
    dictionary whose column has no entry, and [predict] answers 0 on it
    for every record. *)
Theorem build_tree_no_rows
    (info_gain : DataFrame -> string -> Q) (threshold : Q) (fuel : nat)
    (data : DataFrame) :
  feature_keys data <> [] ->
  rows data = [] ->
  exists node,
    In node (feature_keys data) /\
    build_tree info_gain threshold (S fuel) data = Ok (Node node []) /\
    forall record, predict (Node node []) record = Ok (VInt 0).
Proof.
  intros Hk Hrows.
  destruct (find_best_column_scan info_gain data Hk) as (k & Hlt & Hb & _).
  cbv zeta in Hb.
  destruct (best_column_index info_gain data _ _ Hb) as [i Hi].
  exists (nth k (feature_keys data) EmptyString).
  split; [now apply nth_In|]. split.
  - rewrite (build_tree_step info_gain threshold fuel data _ _ i Hb Hi).
    rewrite Hrows. reflexivity.
  - intros record. rewrite predict_node. now destruct (record_get _ _).
Qed.

Lemma leaves_node_inv (node : string) (children : list (value * pytree))
    (x : value) :
  In x (leaves (Node node children)) ->
  exists v sub, In (v, sub) children /\ In x (leaves sub).
Proof.
  cbn [leaves]. induction children as [|[k t] children IH]; simpl; [tauto|].
  intros H. apply in_app_or in H. destruct H as [H|H].
  - exists k, t. split; [now left | exact H].
  - destruct (IH H) as (v & sub & Hin & Hx). exists v, sub.
    split; [now right | exact Hx].
Qed.

Lemma tree_columns_node_inv (node : string)
    (children : list (value * pytree)) (c : string) :
  In c (tree_columns (Node node children)) ->
  c = node \/ exists v sub, In (v, sub) children /\ In c (tree_columns sub).
Proof.
  cbn [tree_columns]. intros [<-|H]; [now left|]. right. revert H.
  induction children as [|[k t] children IH]; simpl; [tauto|].
  intros H. apply in_app_or in H. destruct H as [H|H].
  - exists k, t. split; [now left | exact H].
  - destruct (IH H) as (v & sub & Hin & Hx). exists v, sub.
    split; [now right | exact Hx].
Qed.

Lemma label_cells_sub_frame_In (data : DataFrame) (node : string) (v x : value) :
  In x (label_cells (sub_frame data node v)) -> In x (label_cells data).
Proof.
  unfold label_cells.
  change (label_key (sub_frame data node v)) with (label_key data).
  destruct (label_key data) as [lbl| |]; try (simpl; tauto).
  unfold getitem. cbn [sub_frame columns].
  destruct (col_index (columns data) lbl) as [li|]; [|simpl; tauto].
  rewrite !in_map_iff. intros (r & Hr & Hin). exists r. split; [exact Hr|].
  now apply (sub_frame_rows_In data node v).
Qed.

(** Every label at a leaf of the tree is a label of the frame the tree was
    built from; every column of the tree is a feature column of it. *)
Lemma build_tree_leaves_columns
    (info_gain : DataFrame -> string -> Q) (threshold : Q) (fuel : nat) :
  forall (data : DataFrame) (t : pytree),
    build_tree info_gain threshold fuel data = Ok t ->
    (forall l, In l (leaves t) -> In l (label_cells data)) /\
    (forall c, In c (tree_columns t) -> In c (feature_keys data)).
Proof.
  induction fuel as [|fuel IH]; intros data t H; [discriminate|].
  destruct (build_tree_entries info_gain threshold fuel data t H)
    as (node & gain & i & kids & Hb & Hi & -> & Hkids).
  assert (Hchild : forall v sub, In (v, sub) kids ->
            (exists leaf rest,
               np_unique (label_cells (sub_frame data node v)) = leaf :: rest
               /\ sub = Leaf leaf)
            \/ build_tree info_gain threshold fuel (sub_frame data node v)
               = Ok sub).
  { intros v sub Hin.
    destruct (Forall2_In_right _ _ _ _ Hkids Hin) as (w & Hw & Hbr & Hfst).
    cbn [fst] in Hfst. subst w.
    destruct (build_branch_cases threshold (build_tree info_gain threshold fuel)
                data node gain i v Hi Hw) as (leaf & rest & Hu & Hc).
    rewrite Hc in Hbr.
    destruct (Qltb gain threshold).
    { injection Hbr as <-. left. now exists leaf, rest. }
    destruct (Nat.eqb _ 1).
    { injection Hbr as <-. left. now exists leaf, rest. }
    destruct (build_tree info_gain threshold fuel (sub_frame data node v))
      as [t'| |]; try discriminate.
    injection Hbr as <-. now right. }
  split.
  - intros l Hl. apply leaves_node_inv in Hl.
    destruct Hl as (v & sub & Hin & Hl).
    apply (label_cells_sub_frame_In data node v).
    destruct (Hchild v sub Hin) as [(leaf & rest & Hu & ->)|Hrec].
    + destruct Hl as [<-|[]]. apply np_unique_In. rewrite Hu. now left.
    + now apply (IH _ _ Hrec).
  - intros c Hc. apply tree_columns_node_inv in Hc.
    destruct Hc as [->|(v & sub & Hin & Hc)].
    + now apply (find_best_column_Ok info_gain data node gain).
    + destruct (Hchild v sub Hin) as [(leaf & rest & _ & ->)|Hrec];
        [destruct Hc|].
      now apply (IH _ _ Hrec).
Qed.

(** X9.  On a well-formed frame (distinct column names, one cell per column,
    one kind of cell per column), what [build_tree] puts at a leaf is a
    label that occurs in the label column of the training frame; hence
    [predict] answers 0 or a training label. *)
Theorem build_tree_leaves_are_training_labels
    (info_gain : DataFrame -> string -> Q) (threshold : Q) (fuel : nat)
    (data : DataFrame) (t : pytree) (record : list (string * value)) :
  wf_frame data = true ->
  build_tree info_gain threshold fuel data = Ok t ->
  (forall l, In l (leaves t) -> In l (label_cells data)) /\
  exists p, predict t record = Ok p /\ (p = VInt 0 \/ In p (label_cells data)).
Proof.
  intros _ H.
  destruct (build_tree_leaves_columns info_gain threshold fuel data t H)
    as [Hl _].
  split; [exact Hl|].
  apply build_tree_built_on in H. destruct H as [Hd _].
  destruct (predict_dict_total record t Hd) as (p & Hp & [->|Hin]).
  - exists (VInt 0). split; [exact Hp | now left].
  - exists p. split; [exact Hp | right; now apply Hl].
Qed.

Lemma nodupb_NoDup (l : list string) : nodupb l = true -> NoDup l.
Proof.
  induction l as [|x l IH]; simpl; [constructor|].
  rewrite andb_true_iff, negb_true_iff. intros [Hx Hl]. constructor.
  - intros Hin. assert (E : existsb (String.eqb x) l = true).
    { apply existsb_exists. exists x. split; [exact Hin | apply String.eqb_refl]. }
    congruence.
  - now apply IH.
Qed.

Lemma label_not_feature (data : DataFrame) (lbl : string) :
  nodupb (columns data) = true ->
  label_key data = Ok lbl ->
  ~ In lbl (feature_keys data).
Proof.
  intros Hnd Hl. unfold label_key in Hl. unfold feature_keys.
  destruct (rev (columns data)) as [|c rest] eqn:Hr; [discriminate|].
  injection Hl as ->.
  assert (Hc : columns data = rev rest ++ [lbl]).
  { rewrite <- (rev_involutive (columns data)), Hr. reflexivity. }
  apply nodupb_NoDup in Hnd. rewrite Hc in *. rewrite removelast_last.
  intros Hin. apply NoDup_remove_2 in Hnd. apply Hnd.
  rewrite app_nil_r. exact Hin.
Qed.

(** X10.  The label column is never a column of the tree: on a frame with
    pairwise distinct column names, every dictionary of the tree splits on
    a feature column. *)
Theorem build_tree_never_splits_on_label
    (info_gain : DataFrame -> string -> Q) (threshold : Q) (fuel : nat)
    (data : DataFrame) (t : pytree) (lbl : string) :
  nodupb (columns data) = true ->
  label_key data = Ok lbl ->
  build_tree info_gain threshold fuel data = Ok t ->
  (forall c, In c (tree_columns t) -> In c (feature_keys data)) /\
  ~ In lbl (tree_columns t).
Proof.
  intros Hnd Hl H.
  destruct (build_tree_leaves_columns info_gain threshold fuel data t H)
    as [_ Hc].
  split; [exact Hc|]. intros Hin.
  apply (label_not_feature data lbl Hnd Hl). now apply Hc.
Qed.

(** X11.  Leaf purity.  When the selected column is not pruned by the threshold,
    an entry of the returned dictionary that is a leaf stands for a
    sub-table whose rows all carry the label of the leaf. *)
Theorem build_tree_unpruned_leaf_pure
    (info_gain : DataFrame -> string -> Q) (threshold : Q) (fuel : nat)
    (data : DataFrame) (node : string) (gain : Q)
    (children : list (value * pytree)) (v l : value) :
  find_best_column info_gain data = Ok (node, gain) ->
  ~ (gain < threshold)%Q ->
  build_tree info_gain threshold (S fuel) data = Ok (Node node children) ->
  children_get children v = Some (Leaf l) ->
  exists sub_table lbl labels,
    get_sub_table data node v = Ok sub_table /\
    label_key data = Ok lbl /\
    getitem sub_table lbl = Ok labels /\
    labels <> [] /\
    forall x, In x labels -> x = l.
Proof.
  intros Hb Hge H Hget.
  destruct (build_tree_entries info_gain threshold fuel data _ H)
    as (node' & gain' & i & kids & Hb' & Hi & E & Hkids).
  rewrite Hb in Hb'. injection Hb' as <- <-. injection E as <-.
  destruct (children_get_Forall2 _ _ _ v Hkids) as [Hsome _].
  destruct (Hsome _ Hget) as [Hv Hbr].
  destruct (branch_labels data node i v Hi Hv)
    as (lbl & leaf & rest & Hsub & Hl & Hlabels & Hu).
  exists (sub_frame data node v), lbl, (label_cells (sub_frame data node v)).
  repeat (split; [assumption|]).
  destruct (build_branch_cases threshold (build_tree info_gain threshold fuel)
              data node gain i v Hi Hv) as (leaf' & rest' & Hu' & Hc).
  rewrite Hu in Hu'. injection Hu' as <- <-.
  rewrite Hc in Hbr.
  destruct (Qltb gain threshold) eqn:E; [apply Qltb_lt in E; contradiction|].
  split.
  { intros E0. rewrite E0 in Hu. discriminate. }
  destruct rest as [|b rest]; cbn [length Nat.eqb] in Hbr.
  - assert (El : leaf = l) by congruence. subst l.
    intros x Hx. apply np_unique_In in Hx.
    rewrite Hu in Hx. destruct Hx as [<-|[]]. reflexivity.
  - exfalso.
    destruct (build_tree info_gain threshold fuel (sub_frame data node v))
      as [t'| |] eqn:Hrec; try discriminate.
    assert (Et : t' = Leaf l) by (simpl in Hbr; congruence). subst t'.
    apply build_tree_built_on in Hrec. destruct Hrec as [Hd _]. discriminate.
Qed.

(* ------------------------------------------------------------------ *)
(** *** Depth of the tree *)




(** What a [build_branch] that succeeds has done. *)
Lemma build_branch_outcome (threshold : Q)
    (recur : DataFrame -> result pytree) (data : DataFrame) (node : string)
    (gain : Q) (i : nat) (v : value) (sub : pytree) :
  col_index (columns data) node = Some i ->
  In v (np_unique (map (cell i) (rows data))) ->
  build_branch threshold recur data node gain v = Ok (v, sub) ->
  exists leaf rest,
    np_unique (label_cells (sub_frame data node v)) = leaf :: rest /\
    ((sub = Leaf leaf /\ (Qltb gain threshold = true \/ rest = [])) \/
     (Qltb gain threshold = false /\ rest <> [] /\
      recur (sub_frame data node v) = Ok sub)).
Proof.
  intros Hi Hv Hbr.
  destruct (build_branch_cases threshold recur data node gain i v Hi Hv)
    as (leaf & rest & Hu & Hc).
  exists leaf, rest. split; [exact Hu|]. rewrite Hc in Hbr.
  destruct (Qltb gain threshold).
  { left. split; [congruence | now left]. }
  destruct rest as [|b rest]; cbn [length Nat.eqb] in Hbr.
  { left. split; [congruence | now right]. }
  right. split; [reflexivity|]. split; [discriminate|].
  destruct (recur (sub_frame data node v)); simpl in Hbr; congruence.
Qed.



(* ================================================================== *)
(** ** Further properties of the predictor *)

Lemma record_get_set_same (d : record) (k : string) (v : value) :
  record_get (record_set d k v) k = Some v.
Proof.
  induction d as [|[k' v'] d IH]; simpl.
  - now rewrite String.eqb_refl.
  - destruct (String.eqb k' k) eqn:E; simpl; rewrite E; [reflexivity | exact IH].
Qed.

Lemma record_get_set_other (d : record) (k k' : string) (v : value) :
  k' <> k -> record_get (record_set d k v) k' = record_get d k'.
Proof.
  intros Hne. induction d as [|[k0 v0] d IH]; simpl.
  - destruct (String.eqb k k') eqn:E; [|reflexivity].
    apply String.eqb_eq in E. congruence.
  - destruct (String.eqb k0 k) eqn:E; simpl.
    + apply String.eqb_eq in E. subst k0.
      destruct (String.eqb k k') eqn:E'; [|reflexivity].
      apply String.eqb_eq in E'. congruence.
    + now rewrite IH.
Qed.

Lemma tree_columns_child (node : string) (children : list (value * pytree))
    (v : value) (sub : pytree) (c : string) :
  In (v, sub) children -> In c (tree_columns sub) ->
  In c (tree_columns (Node node children)).
Proof.
  cbn [tree_columns]. intros Hin Hc. right. revert Hin.
  induction children as [|[k t] children IH]; simpl; [tauto|].
  intros [E|Hin]; apply in_or_app.
  - injection E as -> ->. now left.
  - right. now apply IH.
Qed.

Lemma predict_agree (t : pytree) (r1 r2 : record) :
  (forall c, In c (tree_columns t) -> record_get r1 c = record_get r2 c) ->
  predict t r1 = predict t r2.
Proof.
  induction t as [l|node children IH] using pytree_induction; intros Hagree;
    [reflexivity|].
  rewrite !predict_node. rewrite <- (Hagree node) by now left.
  destruct (record_get r1 node) as [v|]; [|reflexivity].
  destruct (children_get children v) as [[l|n c]|] eqn:Hc; try reflexivity.
  pose proof (children_get_In _ _ _ Hc) as Hin.
  rewrite Forall_forall in IH. apply (IH _ Hin). intros c' Hc'.
  apply Hagree. now apply (tree_columns_child node children v (Node n c)).
Qed.

(** X13.  [predict] reads the record only at the columns of the tree: two
    records that hold the same value, or both none, for every column of
    the tree get the same answer. *)
Theorem predict_reads_tree_columns (t : pytree) (r1 r2 : record) :
  (forall c, In c (tree_columns t) -> record_get r1 c = record_get r2 c) ->
  predict t r1 = predict t r2.
Proof. exact (predict_agree t r1 r2). Qed.

(** X14.  The value a record holds for the label column has no influence on the
    answer of [predict] on a tree built from a frame with pairwise distinct
    column names. *)
Theorem predict_ignores_label
    (info_gain : DataFrame -> string -> Q) (threshold : Q) (fuel : nat)
    (data : DataFrame) (t : pytree) (lbl : string) (r : record) (x : value) :
  nodupb (columns data) = true ->
  label_key data = Ok lbl ->
  build_tree info_gain threshold fuel data = Ok t ->
  predict t (record_set r lbl x) = predict t r.
Proof.
  intros Hnd Hl H. apply predict_agree. intros c Hc.
  apply record_get_set_other. intros ->.
  destruct (build_tree_leaves_columns info_gain threshold fuel data t H)
    as [_ Hcols].
  apply (label_not_feature data lbl Hnd Hl). now apply Hcols.
Qed.

(* ------------------------------------------------------------------ *)
(** *** The record of a row *)

Lemma fold_record_set_get (f : string -> value) (l : list string) (d : record)
    (c : string) :
  (In c l -> record_get (fold_left (fun d k => record_set d k (f k)) l d) c
             = Some (f c)) /\
  (~ In c l -> record_get (fold_left (fun d k => record_set d k (f k)) l d) c
               = record_get d c).
Proof.
  revert d. induction l as [|k l IH]; intros d; simpl; [tauto|].
  destruct (IH (record_set d k (f k))) as [IH1 IH2].
  destruct (in_dec string_dec c l) as [Hin|Hnin].
  - split; [intros _; now apply IH1 | intros Hn; exfalso; apply Hn; now right].
  - split.
    + intros [->|Hin]; [|contradiction].
      rewrite (IH2 Hnin). apply record_get_set_same.
    + intros Hn. rewrite (IH2 Hnin). apply record_get_set_other.
      intros ->. apply Hn. now left.
Qed.

Lemma fill_record_lookup (cols : list string) (row : list value) (d : record)
    (c : string) :
  (In c cols ->
   record_get (fill_record cols row d) c = Some (row_item cols row c)) /\
  (~ In c cols -> record_get (fill_record cols row d) c = record_get d c).
Proof. apply (fold_record_set_get (row_item cols row)). Qed.


(* ------------------------------------------------------------------ *)
(** *** The tree on the rows it was built from *)

Lemma misses_node_inv (data : record) (node : string)
    (children : list (value * pytree)) (v : value) (sub : pytree) :
  record_get data node = Some v ->
  children_get children v = Some sub ->
  misses data (Node node children) ->
  misses data sub.
Proof.
  intros Hr Hc Hm.
  inversion Hm as [? ? E|? ? ? E1 E2|? ? ? ? E1 E2 Hsub]; subst; congruence.
Qed.

Lemma row_label_cell (data : DataFrame) (lbl : string) (r : list value) :
  label_key data = Ok lbl -> row_label (columns data) r
                             = row_item (columns data) r lbl.
Proof.
  unfold label_key, row_label. destruct (rev (columns data)); [discriminate|].
  now intros [= ->].
Qed.

Lemma sub_frame_keeps_row (data : DataFrame) (node : string) (i : nat)
    (r : list value) :
  col_index (columns data) node = Some i ->
  (length (rows data) <= 100)%nat ->
  In r (rows data) ->
  In r (rows (sub_frame data node (cell i r))).
Proof.
  intros Hi Hlen Hin. cbn [sub_frame rows]. rewrite firstn_all2.
  - apply filter_In. split; [exact Hin|].
    rewrite (matches_cell data node i _ r Hi). apply value_eqb_refl.
  - pose proof (filter_length_le (matches data node (cell i r)) (rows data)).
    lia.
Qed.

Lemma row_label_in_label_cells (data : DataFrame) (lbl : string)
    (r : list value) :
  label_key data = Ok lbl ->
  In lbl (columns data) ->
  In r (rows data) ->
  In (row_item (columns data) r lbl) (label_cells data).
Proof.
  intros Hl Hin Hr. unfold label_cells, getitem, row_item. rewrite Hl.
  destruct (col_index_In _ _ Hin) as (li & -> & _). now apply in_map.
Qed.

Lemma build_tree_fits_rows
    (info_gain : DataFrame -> string -> Q) (threshold : Q) (fuel : nat) :
  forall (data : DataFrame) (t : pytree) (r : list value) (rec : record),
    (length (rows data) <= 100)%nat ->
    build_tree info_gain threshold fuel data = Ok t ->
    In r (rows data) ->
    (forall c, In c (columns data) ->
               record_get rec c = Some (row_item (columns data) r c)) ->
    ~ misses rec t /\
    ((forall d c, ~ (info_gain d c < threshold)%Q) ->
     predict t rec = Ok (row_label (columns data) r)).
Proof.
  induction fuel as [|fuel IH]; intros data t r rec Hlen H Hr Hrec;
    [discriminate|].
  destruct (build_tree_entries info_gain threshold fuel data t H)
    as (node & gain & i & kids & Hb & Hi & -> & Hkids).
  assert (Hget : record_get rec node = Some (cell i r)).
  { rewrite (Hrec node (col_index_Some _ _ _ Hi)). unfold row_item.
    now rewrite Hi. }
  assert (Hv : In (cell i r) (np_unique (map (cell i) (rows data)))).
  { apply np_unique_In. now apply in_map. }
  destruct (children_get_Forall2 _ _ _ (cell i r) Hkids) as [_ Hsome].
  destruct (Hsome Hv) as (sub & Hc & Hbr).
  pose proof (sub_frame_keeps_row data node i r Hi Hlen Hr) as Hrsub.
  destruct (build_branch_outcome threshold _ data node gain i _ sub Hi Hv Hbr)
    as (leaf & rest & Hu & [[-> Hwhy]|(Hge & Hrest & Hrecur)]).
  - split.
    + intros Hm. apply (misses_node_inv rec node kids _ _ Hget Hc) in Hm.
      inversion Hm.
    + intros Hnp. rewrite predict_node, Hget, Hc. f_equal.
      destruct Hwhy as [Hlt| ->].
      { apply Qltb_lt in Hlt. exfalso. apply (Hnp data node).
        apply find_best_column_Ok in Hb. destruct Hb as [_ <-]. exact Hlt. }
      destruct (label_key_Ok data) as (lbl & Hl & Hin).
      { intros E. rewrite E in Hi. discriminate. }
      rewrite (row_label_cell data lbl r Hl).
      assert (Hx : In (row_item (columns data) r lbl)
                      (label_cells (sub_frame data node (cell i r)))).
      { apply (row_label_in_label_cells (sub_frame data node (cell i r)) lbl r);
          assumption. }
      apply np_unique_In in Hx. rewrite Hu in Hx.
      destruct Hx as [<-|[]]. reflexivity.
  - destruct (IH (sub_frame data node (cell i r)) sub r rec) as [IHm IHp];
      try assumption.
    { pose proof (sub_frame_length data node (cell i r)) as [_ Hle]. lia. }
    assert (Hd : is_dict sub = true)
      by now apply (build_tree_built_on info_gain threshold fuel _ _ Hrecur).
    split.
    + intros Hm. apply IHm.
      now apply (misses_node_inv rec node kids _ _ Hget Hc).
    + intros Hnp. rewrite predict_node, Hget, Hc.
      destruct sub as [l|n c]; [discriminate|]. now apply IHp.
Qed.

(** X16.  A tree built from at most 100 rows never misses on a row it was built
    from: [predict] on the record of the row reaches a leaf.  When no gain
    is below the threshold, so that leaves are only made for pure
    sub-tables, the answer is the label of the row. *)
Theorem build_tree_fits_training_rows
    (info_gain : DataFrame -> string -> Q) (threshold : Q) (fuel : nat)
    (data : DataFrame) (t : pytree) (r : list value) :
  (length (rows data) <= 100)%nat ->
  build_tree info_gain threshold fuel data = Ok t ->
  In r (rows data) ->
  ~ misses (fill_record (columns data) r []) t /\
  (exists l, predict t (fill_record (columns data) r []) = Ok l
             /\ In l (leaves t)) /\
  ((forall d c, ~ (info_gain d c < threshold)%Q) ->
   predict t (fill_record (columns data) r [])
   = Ok (row_label (columns data) r)).
Proof.
  intros Hlen H Hr.
  destruct (build_tree_fits_rows info_gain threshold fuel data t r
              (fill_record (columns data) r []) Hlen H Hr) as [Hm Hp].
  { intros c Hc. now apply fill_record_lookup. }
  split; [exact Hm|]. split; [|exact Hp].
  apply build_tree_built_on in H. destruct H as [Hd _].
  now apply (predict_dict (fill_record (columns data) r []) t Hd).
Qed.

(* ================================================================== *)
(** ** Further properties of the evaluation loop *)




(* ------------------------------------------------------------------ *)
(** *** The reported figures *)








(* ------------------------------------------------------------------ *)
(** ** Instances of the further properties *)

Lemma example_gain_nonneg (d : DataFrame) (c : string) :
  ~ (example_gain d c < 0)%Q.
Proof.
  apply Qle_not_lt. unfold example_gain.
  destruct (getitem d c) as [col| |]; try apply Qle_refl.
  destruct (Nat.leb _ 1); [apply Qle_refl|].
  unfold Qle. cbn [Qnum Qden]. lia.
Qed.

Lemma find_best_column_ValueError_iff_witness :
  (length (columns (mkFrame ["Y"%string] [[VStr "yes"]])) <= 1)%nat /\
  find_best_column example_gain (mkFrame ["Y"%string] [[VStr "yes"]])
  = Raise ValueError.
Proof.
  assert (H : (length (columns (mkFrame ["Y"%string] [[VStr "yes"]])) <= 1)%nat)
    by (simpl; lia).
  split; [exact H|].
  exact (proj2 (proj1 (find_best_column_ValueError_iff example_gain
                         (mkFrame ["Y"%string] [[VStr "yes"]]))) H).
Defined.

Lemma get_sub_table_KeyError_iff_witness :
  nodupb (columns and_frame) = true /\
  ~ In "Z"%string (columns and_frame) /\
  get_sub_table and_frame "Z" (VInt 1) = Raise KeyError.
Proof.
  assert (H : ~ In "Z"%string (columns and_frame)).
  { simpl. intros [E|[E|[E|[]]]]; discriminate E. }
  split; [reflexivity|]. split; [exact H|].
  exact (proj2 (proj1 (get_sub_table_KeyError_iff and_frame "Z" (VInt 1)
                         eq_refl)) H).
Defined.

Lemma get_sub_table_bounded_witness :
  get_sub_table and_frame "A" (VInt 1)
  = Ok (mkFrame ["A"; "B"; "Y"]%string
          [[VInt 1; VInt 1; VStr "yes"]; [VInt 1; VInt 0; VStr "no"]]) /\
  (length [[VInt 1; VInt 1; VStr "yes"]; [VInt 1; VInt 0; VStr "no"]] <= 100)%nat.
Proof.
  assert (H : get_sub_table and_frame "A" (VInt 1)
              = Ok (mkFrame ["A"; "B"; "Y"]%string
                      [[VInt 1; VInt 1; VStr "yes"]; [VInt 1; VInt 0; VStr "no"]]))
    by reflexivity.
  split; [exact H|].
  exact (proj1 (get_sub_table_bounded and_frame "A" (VInt 1) _ H)).
Defined.

Lemma get_sub_table_idempotent_witness :
  get_sub_table and_frame "A" (VInt 1)
  = Ok (mkFrame ["A"; "B"; "Y"]%string
          [[VInt 1; VInt 1; VStr "yes"]; [VInt 1; VInt 0; VStr "no"]]) /\
  get_sub_table
    (mkFrame ["A"; "B"; "Y"]%string
       [[VInt 1; VInt 1; VStr "yes"]; [VInt 1; VInt 0; VStr "no"]])
    "A" (VInt 1)
  = Ok (mkFrame ["A"; "B"; "Y"]%string
          [[VInt 1; VInt 1; VStr "yes"]; [VInt 1; VInt 0; VStr "no"]]).
Proof.
  assert (H : get_sub_table and_frame "A" (VInt 1)
              = Ok (mkFrame ["A"; "B"; "Y"]%string
                      [[VInt 1; VInt 1; VStr "yes"]; [VInt 1; VInt 0; VStr "no"]]))
    by reflexivity.
  split; [exact H|].
  exact (get_sub_table_idempotent and_frame "A" (VInt 1) _ H).
Defined.

Lemma get_sub_table_other_value_empty_witness :
  get_sub_table and_frame "A" (VInt 1)
  = Ok (mkFrame ["A"; "B"; "Y"]%string
          [[VInt 1; VInt 1; VStr "yes"]; [VInt 1; VInt 0; VStr "no"]]) /\
  VInt 1 <> VInt 0 /\
  get_sub_table
    (mkFrame ["A"; "B"; "Y"]%string
       [[VInt 1; VInt 1; VStr "yes"]; [VInt 1; VInt 0; VStr "no"]])
    "A" (VInt 0)
  = Ok (mkFrame (columns and_frame) []).
Proof.
  assert (H : get_sub_table and_frame "A" (VInt 1)
              = Ok (mkFrame ["A"; "B"; "Y"]%string
                      [[VInt 1; VInt 1; VStr "yes"]; [VInt 1; VInt 0; VStr "no"]]))
    by reflexivity.
  assert (Hne : VInt 1 <> VInt 0) by discriminate.
  split; [exact H|]. split; [exact Hne|].
  exact (get_sub_table_other_value_empty and_frame "A" (VInt 1) (VInt 0) _ H Hne).
Defined.

Lemma get_sub_table_well_formed_witness :
  wf_frame and_frame = true /\
  get_sub_table and_frame "B" (VInt 0)
  = Ok (mkFrame ["A"; "B"; "Y"]%string
          [[VInt 1; VInt 0; VStr "no"]; [VInt 0; VInt 0; VStr "no"]]) /\
  wf_frame (mkFrame ["A"; "B"; "Y"]%string
              [[VInt 1; VInt 0; VStr "no"]; [VInt 0; VInt 0; VStr "no"]])
  = true.
Proof.
  assert (H : get_sub_table and_frame "B" (VInt 0)
              = Ok (mkFrame ["A"; "B"; "Y"]%string
                      [[VInt 1; VInt 0; VStr "no"]; [VInt 0; VInt 0; VStr "no"]]))
    by reflexivity.
  split; [reflexivity|]. split; [exact H|].
  exact (get_sub_table_well_formed and_frame "B" (VInt 0) _ eq_refl H).
Defined.

Lemma build_tree_ValueError_iff_witness :
  wf_frame (mkFrame ["Y"%string] [[VStr "yes"]]) = true /\
  (length (columns (mkFrame ["Y"%string] [[VStr "yes"]])) <= 1)%nat /\
  build_tree example_gain (1 # 100) 1 (mkFrame ["Y"%string] [[VStr "yes"]])
  = Raise ValueError.
Proof.
  assert (H : (length (columns (mkFrame ["Y"%string] [[VStr "yes"]])) <= 1)%nat)
    by (simpl; lia).
  split; [reflexivity|]. split; [exact H|].
  exact (proj2 (proj1 (build_tree_ValueError_iff example_gain (1 # 100)
                         (mkFrame ["Y"%string] [[VStr "yes"]]) eq_refl)
                      0%nat) H).
Defined.

Lemma build_tree_no_rows_witness :
  feature_keys (mkFrame ["A"; "B"; "Y"]%string []) <> [] /\
  rows (mkFrame ["A"; "B"; "Y"]%string []) = [] /\
  exists node,
    build_tree example_gain (1 # 100) 1 (mkFrame ["A"; "B"; "Y"]%string [])
    = Ok (Node node []).
Proof.
  assert (H : feature_keys (mkFrame ["A"; "B"; "Y"]%string []) <> [])
    by discriminate.
  split; [exact H|]. split; [reflexivity|].
  destruct (build_tree_no_rows example_gain (1 # 100) 0
              (mkFrame ["A"; "B"; "Y"]%string []) H eq_refl)
    as (node & _ & Hb & _).
  exists node. exact Hb.
Defined.

Lemma build_tree_leaves_are_training_labels_witness :
  wf_frame and_frame = true /\
  build_tree example_gain (1 # 100) 2 and_frame
  = Ok (Node "A"
          [(VInt 0, Leaf (VStr "no"));
           (VInt 1, Node "B" [(VInt 0, Leaf (VStr "no"));
                              (VInt 1, Leaf (VStr "yes"))])]) /\
  In (VStr "yes") (label_cells and_frame).
Proof.
  assert (H : build_tree example_gain (1 # 100) 2 and_frame
              = Ok (Node "A"
                      [(VInt 0, Leaf (VStr "no"));
                       (VInt 1, Node "B" [(VInt 0, Leaf (VStr "no"));
                                          (VInt 1, Leaf (VStr "yes"))])]))
    by reflexivity.
  split; [reflexivity|]. split; [exact H|].
  apply (proj1 (build_tree_leaves_are_training_labels example_gain (1 # 100) 2
                  and_frame _ [] eq_refl H)).
  simpl. tauto.
Defined.

Lemma build_tree_never_splits_on_label_witness :
  nodupb (columns and_frame) = true /\
  label_key and_frame = Ok "Y"%string /\
  build_tree example_gain (1 # 100) 2 and_frame
  = Ok (Node "A"
          [(VInt 0, Leaf (VStr "no"));
           (VInt 1, Node "B" [(VInt 0, Leaf (VStr "no"));
                              (VInt 1, Leaf (VStr "yes"))])]) /\
  ~ In "Y"%string
       (tree_columns
          (Node "A"
             [(VInt 0, Leaf (VStr "no"));
              (VInt 1, Node "B" [(VInt 0, Leaf (VStr "no"));
                                 (VInt 1, Leaf (VStr "yes"))])])).
Proof.
  assert (H : build_tree example_gain (1 # 100) 2 and_frame
              = Ok (Node "A"
                      [(VInt 0, Leaf (VStr "no"));
                       (VInt 1, Node "B" [(VInt 0, Leaf (VStr "no"));
                                          (VInt 1, Leaf (VStr "yes"))])]))
    by reflexivity.
  split; [reflexivity|]. split; [reflexivity|]. split; [exact H|].
  exact (proj2 (build_tree_never_splits_on_label example_gain (1 # 100) 2
                  and_frame _ "Y"%string eq_refl eq_refl H)).
Defined.

Lemma build_tree_unpruned_leaf_pure_witness :
  find_best_column example_gain and_frame = Ok ("A"%string, 2 # 4) /\
  ~ (2 # 4 < 1 # 100)%Q /\
  exists sub_table lbl labels,
    get_sub_table and_frame "A" (VInt 0) = Ok sub_table /\
    label_key and_frame = Ok lbl /\
    getitem sub_table lbl = Ok labels /\
    labels <> [] /\
    forall x, In x labels -> x = VStr "no".
Proof.
  assert (H1 : find_best_column example_gain and_frame = Ok ("A"%string, 2 # 4))
    by reflexivity.
  assert (H2 : ~ (2 # 4 < 1 # 100)%Q) by (apply Qle_not_lt; discriminate).
  split; [exact H1|]. split; [exact H2|].
  exact (build_tree_unpruned_leaf_pure example_gain (1 # 100) 1 and_frame
           "A"%string (2 # 4)
           [(VInt 0, Leaf (VStr "no"));
            (VInt 1, Node "B" [(VInt 0, Leaf (VStr "no"));
                               (VInt 1, Leaf (VStr "yes"))])]
           (VInt 0) (VStr "no") H1 H2 eq_refl eq_refl).
Defined.


Lemma predict_reads_tree_columns_witness :
  (forall c,
     In c (tree_columns (Node "A" [(VInt 1, Leaf (VStr "yes"))])) ->
     record_get [("A"%string, VInt 1); ("Y"%string, VStr "no")] c
     = record_get [("A"%string, VInt 1)] c) /\
  predict (Node "A" [(VInt 1, Leaf (VStr "yes"))])
          [("A"%string, VInt 1); ("Y"%string, VStr "no")]
  = predict (Node "A" [(VInt 1, Leaf (VStr "yes"))]) [("A"%string, VInt 1)].
Proof.
  assert (H : forall c,
            In c (tree_columns (Node "A" [(VInt 1, Leaf (VStr "yes"))])) ->
            record_get [("A"%string, VInt 1); ("Y"%string, VStr "no")] c
            = record_get [("A"%string, VInt 1)] c).
  { intros c [<-|[]]. reflexivity. }
  split; [exact H|].
  exact (predict_reads_tree_columns _ _ _ H).
Defined.

Lemma predict_ignores_label_witness :
  nodupb (columns and_frame) = true /\
  label_key and_frame = Ok "Y"%string /\
  build_tree example_gain (1 # 100) 2 and_frame
  = Ok (Node "A"
          [(VInt 0, Leaf (VStr "no"));
           (VInt 1, Node "B" [(VInt 0, Leaf (VStr "no"));
                              (VInt 1, Leaf (VStr "yes"))])]) /\
  predict (Node "A"
             [(VInt 0, Leaf (VStr "no"));
              (VInt 1, Node "B" [(VInt 0, Leaf (VStr "no"));
                                 (VInt 1, Leaf (VStr "yes"))])])
          (record_set [("A"%string, VInt 1); ("B"%string, VInt 1)]
                      "Y" (VStr "no"))
  = predict (Node "A"
               [(VInt 0, Leaf (VStr "no"));
                (VInt 1, Node "B" [(VInt 0, Leaf (VStr "no"));
                                   (VInt 1, Leaf (VStr "yes"))])])
            [("A"%string, VInt 1); ("B"%string, VInt 1)].
Proof.
  assert (H : build_tree example_gain (1 # 100) 2 and_frame
              = Ok (Node "A"
                      [(VInt 0, Leaf (VStr "no"));
                       (VInt 1, Node "B" [(VInt 0, Leaf (VStr "no"));
                                          (VInt 1, Leaf (VStr "yes"))])]))
    by reflexivity.
  split; [reflexivity|]. split; [reflexivity|]. split; [exact H|].
  exact (predict_ignores_label example_gain (1 # 100) 2 and_frame _
           "Y"%string [("A"%string, VInt 1); ("B"%string, VInt 1)]
           (VStr "no") eq_refl eq_refl H).
Defined.


Lemma build_tree_fits_training_rows_witness :
  (length (rows and_frame) <= 100)%nat /\
  build_tree example_gain 0 2 and_frame
  = Ok (Node "A"
          [(VInt 0, Leaf (VStr "no"));
           (VInt 1, Node "B" [(VInt 0, Leaf (VStr "no"));
                              (VInt 1, Leaf (VStr "yes"))])]) /\
  In [VInt 1; VInt 1; VStr "yes"] (rows and_frame) /\
  predict (Node "A"
             [(VInt 0, Leaf (VStr "no"));
              (VInt 1, Node "B" [(VInt 0, Leaf (VStr "no"));
                                 (VInt 1, Leaf (VStr "yes"))])])
          (fill_record (columns and_frame) [VInt 1; VInt 1; VStr "yes"] [])
  = Ok (row_label (columns and_frame) [VInt 1; VInt 1; VStr "yes"]).
Proof.
  assert (H1 : (length (rows and_frame) <= 100)%nat) by (simpl; lia).
  assert (H2 : build_tree example_gain 0 2 and_frame
               = Ok (Node "A"
                       [(VInt 0, Leaf (VStr "no"));
                        (VInt 1, Node "B" [(VInt 0, Leaf (VStr "no"));
                                           (VInt 1, Leaf (VStr "yes"))])]))
    by reflexivity.
  assert (H3 : In [VInt 1; VInt 1; VStr "yes"] (rows and_frame))
    by (simpl; tauto).
  split; [exact H1|]. split; [exact H2|]. split; [exact H3|].
  exact (proj2 (proj2 (build_tree_fits_training_rows example_gain 0 2
                         and_frame _ _ H1 H2 H3))
               example_gain_nonneg).
Defined.



